(** * Artifact publication callbacks of [cosmos/io.py]

    A shallow embedding of the callbacks that publish the files of a dbt
    project to a remote object store ([upload_to_aws_s3], [upload_to_gcp_gs],
    [upload_to_azure_wasb], [upload_to_cloud_storage]), of the resolver of the
    remote target ([_configure_remote_target_path]), of the builder of remote
    names ([_construct_dest_file_path]) and of the log callback
    ([_extract_show_list], [log_to_xcom]).

    Python values are embedded as follows.
    - [str] is a list of code points; [py "text"] is a literal.
    - an [int] is a [Z].
    - a raised exception is the [Raise] case of [result].
    - the functions of the Python library the callbacks call ([os.path],
      [pathlib], [re], [json], [urllib.parse]) are embedded next to them, for
      the POSIX flavour of CPython.
    - the remote store, the XCom table and the local file system are explicit
      arguments. *)

From Stdlib Require Import ZArith NArith Ascii String DecimalString DecimalPos DecimalZ Lia.
From stdpp Require Import base option list gmap.

Set Warnings "-register-all".

(* ================================================================== *)
(** ** Python strings *)
(* ================================================================== *)

Module PyStr.

(** A character is its code point. *)
Abbreviation char := N (only parsing).
Abbreviation str := (list N) (only parsing).

(** A literal. *)
Definition py (s : string) : str := N_of_ascii <$> list_ascii_of_string s.
Arguments py s%_string : simpl never.

Definition chr_slash : char := 47%N.

(** [s.startswith(p)] *)
Fixpoint startswith (p s : str) : bool :=
  match p, s with
  | [], _ => true
  | a :: p', b :: s' => N.eqb a b && startswith p' s'
  | _ :: _, [] => false
  end.

(** [s.endswith(p)] *)
Definition endswith (p s : str) : bool := startswith (rev p) (rev s).

(** The text from its first character that does not satisfy [f]. *)
Fixpoint drop_while (f : char -> bool) (s : str) : str :=
  match s with
  | c :: s' => if f c then drop_while f s' else s
  | [] => []
  end.

(** [s.lstrip(chars)]: drops the leading characters that occur in [chars]. *)
Definition lstrip (chars s : str) : str :=
  drop_while (fun c => existsb (N.eqb c) chars) s.

(** [s.rstrip(chars)] *)
Definition rstrip (chars s : str) : str := rev (lstrip chars (rev s)).

(** [s.split(c)] for a separator of one character. *)
Fixpoint split_chr (c : char) (s : str) : list str :=
  match s with
  | [] => [[]]
  | x :: s' =>
      if N.eqb x c then [] :: split_chr c s'
      else match split_chr c s' with
           | h :: t => (x :: h) :: t
           | [] => [[x]]
           end
  end.

(** [sep.join(parts)] *)
Fixpoint join (sep : str) (parts : list str) : str :=
  match parts with
  | [] => []
  | p :: ps => match ps with [] => p | _ :: _ => p ++ sep ++ join sep ps end
  end.

(** [s.split(sep)] for a separator that is not empty: the pieces between the
    occurrences of [sep], found from the left and not overlapping.  [skip]
    counts the characters of an occurrence that are still to be passed over,
    [cur] holds the piece being read, reversed. *)
Fixpoint split_from (sep : str) (skip : nat) (cur s : str) : list str :=
  match s with
  | [] => [rev cur]
  | c :: s' =>
      match skip with
      | S k => split_from sep k cur s'
      | O =>
          if startswith sep s then rev cur :: split_from sep (length sep - 1) [] s'
          else split_from sep 0 (c :: cur) s'
      end
  end.

(** [str(n)] for an [int]. *)
Definition str_of_int (n : Z) : str := py (NilZero.string_of_int (Z.to_int n)).

End PyStr.
Export PyStr.

(* ================================================================== *)
(** ** Exceptions *)
(* ================================================================== *)

Module PyExn.

(** The exceptions the callbacks raise or let through.  [ValueError] and
    [CosmosValueError] carry their message. *)
Inductive exn : Type :=
  | ValueError (msg : str)
  | CosmosValueError (msg : str)
  | KeyError (key : str)
  | AttributeError (name : str)
  | OSError (msg : str)
  | AirflowException (msg : str)
  | TransportError (name : str).

(** [str(e)] *)
Definition exn_text (e : exn) : str :=
  match e with
  | ValueError msg | CosmosValueError msg | OSError msg | AirflowException msg => msg
  | KeyError key => py "'" ++ key ++ py "'"
  | AttributeError name | TransportError name => name
  end.

Inductive result (A : Type) : Type :=
  | Ok (a : A)
  | Raise (e : exn).
Arguments Ok {A} a.
Arguments Raise {A} e.

#[global] Instance result_ret : MRet result := fun _ a => Ok a.
#[global] Instance result_bind : MBind result := fun _ _ f m =>
  match m with Ok a => f a | Raise e => Raise e end.

End PyExn.
Export PyExn.

(** [s.split(sep)]; an empty separator is refused. *)
Definition str_split (sep s : str) : result (list str) :=
  match sep with
  | [] => Raise (ValueError (py "empty separator"))
  | _ :: _ => Ok (split_from sep 0 [] s)
  end.

(* ================================================================== *)
(** ** [os.path] (posixpath) *)
(* ================================================================== *)

Module OsPath.

Definition sep : str := py "/".
Definition curdir : str := py ".".
Definition pardir : str := py "..".

Definition isabs (p : str) : bool := startswith sep p.

(** One round of the loop of [os.path.join(a, *p)]. *)
Definition join_step (path b : str) : str :=
  if startswith sep b then b
  else if bool_decide (path = []) || endswith sep path then path ++ b
  else path ++ sep ++ b.

Definition join (a : str) (p : list str) : str := foldl join_step a p.

(** The number of leading slashes [normpath] keeps: POSIX allows one or two,
    three or more count as one. *)
Definition initial_slashes (path : str) : nat :=
  if startswith sep path then
    if startswith (sep ++ sep) path && negb (startswith (sep ++ sep ++ sep) path)
    then 2 else 1
  else 0.

(** One round of the loop of [normpath] over the components. *)
Definition norm_step (slashes : nat) (new_comps : list str) (comp : str) : list str :=
  if bool_decide (comp = []) || bool_decide (comp = curdir) then new_comps
  else if negb (bool_decide (comp = pardir))
          || (bool_decide (slashes = 0) && bool_decide (new_comps = []))
          || (negb (bool_decide (new_comps = []))
              && bool_decide (List.last new_comps [] = pardir))
       then new_comps ++ [comp]
       else removelast new_comps.

Definition normpath (path : str) : str :=
  if bool_decide (path = []) then curdir
  else
    let slashes := initial_slashes path in
    let comps := foldl (norm_step slashes) [] (split_chr chr_slash path) in
    let path' := replicate slashes chr_slash ++ PyStr.join sep comps in
    if bool_decide (path' = []) then curdir else path'.

(** [abspath], in the working directory [cwd]. *)
Definition abspath (cwd path : str) : str :=
  normpath (if isabs path then path else join cwd [path]).

(** [commonprefix] of two lists: the library takes the smallest and the
    largest of its arguments and compares them item by item, which for two
    lists is their longest common prefix. *)
Fixpoint commonprefix (a b : list str) : list str :=
  match a, b with
  | x :: a', y :: b' => if bool_decide (x = y) then x :: commonprefix a' b' else []
  | _, _ => []
  end.

Definition nonempty (s : str) : bool := negb (bool_decide (s = [])).

(** [relpath(path, start)], in the working directory [cwd]. *)
Definition relpath (cwd path start : str) : result str :=
  if bool_decide (path = []) then Raise (ValueError (py "no path specified"))
  else
    let start_list := List.filter nonempty (split_chr chr_slash (abspath cwd start)) in
    let path_list := List.filter nonempty (split_chr chr_slash (abspath cwd path)) in
    let i := length (commonprefix start_list path_list) in
    let rel_list := replicate (length start_list - i) pardir ++ drop i path_list in
    match rel_list with
    | [] => Ok curdir
    | a :: p => Ok (join a p)
    end.

End OsPath.

(* ================================================================== *)
(** ** The execution context handed to a callback *)
(* ================================================================== *)

(** [context["task_instance"]]: [try_number] is the public attempt counter,
    [_try_number] the private one of Airflow 2; an attribute that the running
    Airflow does not have is [None]. *)
Record TaskInstance := {
  task_id : str;
  try_number : option Z;
  _try_number : option Z;
}.

(** [kwargs["context"]] *)
Record Context := {
  dag_id : str;
  run_id : str;
  task_instance : TaskInstance;
}.

(** [kwargs]: the callback is called with or without a context. *)
Definition Kwargs := option Context.

Definition kwargs_context (kwargs : Kwargs) : result Context :=
  match kwargs with
  | Some context => Ok context
  | None => Raise (KeyError (py "context"))
  end.

(** [getattr(obj, name)] on an attribute that may be missing. *)
Definition getattr (name : str) (attr : option Z) : result Z :=
  match attr with
  | Some v => Ok v
  | None => Raise (AttributeError name)
  end.

(* ================================================================== *)
(** ** [_construct_dest_file_path] *)
(* ================================================================== *)

(** [dest_target_dir] and [source_target_dir] are paths; the function only
    takes their text, so they are given as [str(dest_target_dir)] and
    [os.fspath(source_target_dir)]. *)
Definition _construct_dest_file_path (cwd : str)
    (dest_target_dir file_path source_target_dir source_subpath : str)
    (kwargs : Kwargs) : result str :=
  let dest_target_dir_str := rstrip (py "/") dest_target_dir in
  context ← kwargs_context kwargs;
  try ← getattr (py "try_number") (try_number (task_instance context));
  let task_run_identifier :=
    dag_id context
    ++ py "/" ++ run_id context
    ++ py "/" ++ task_id (task_instance context)
    ++ py "/" ++ str_of_int try in
  rel ← OsPath.relpath cwd file_path source_target_dir;
  let rel_path := lstrip (py "/") rel in
  Ok (dest_target_dir_str ++ py "/" ++ task_run_identifier
      ++ py "/" ++ source_subpath ++ py "/" ++ rel_path).

(* ================================================================== *)
(** ** [pathlib] (PurePosixPath) *)
(* ================================================================== *)

Module Pathlib.

(** A path is its root (empty, one slash or two) and its parts. *)
Record Path := { root : str; parts : list str }.

(** [splitroot]: one leading slash, or exactly two, make the root. *)
Definition splitroot (p : str) : str * str :=
  if negb (startswith OsPath.sep p) then ([], p)
  else if negb (startswith OsPath.sep (drop 1 p)) || startswith OsPath.sep (drop 2 p)
       then (OsPath.sep, drop 1 p)
       else (take 2 p, drop 2 p).

Definition is_part (x : str) : bool :=
  negb (bool_decide (x = [])) && negb (bool_decide (x = OsPath.curdir)).

(** [Path(s)] *)
Definition of_str (s : str) : Path :=
  let '(r, rel) := splitroot s in
  {| root := r; parts := List.filter is_part (split_chr chr_slash rel) |}.

(** [str(p)], also [os.fspath(p)] *)
Definition to_str (p : Path) : str :=
  let s := root p ++ PyStr.join OsPath.sep (parts p) in
  if bool_decide (s = []) then OsPath.curdir else s.

(** [p / s] *)
Definition div (p : Path) (s : str) : Path := of_str (OsPath.join (to_str p) [s]).

(** [p.joinpath] on the names [rel]: the path of a descendant of [p]. *)
Definition joinpath (p : Path) (rel : list str) : Path :=
  {| root := root p; parts := parts p ++ rel |}.

End Pathlib.

(* ================================================================== *)
(** ** The local file system *)
(* ================================================================== *)

(** What the file system holds at a path: a regular file with its content, or
    a directory with its entries in the order the host lists them. *)
Inductive node : Type :=
  | File (content : str)
  | Dir (entries : list (str * node)).

Definition is_file (n : node) : bool :=
  match n with File _ => true | Dir _ => false end.

Definition dirnames (entries : list (str * node)) : list str :=
  fst <$> List.filter (fun e => negb (is_file (snd e))) entries.

(** The regular files of a directory, each with its content. *)
Definition filenames (entries : list (str * node)) : list (str * str) :=
  flat_map (fun e => match snd e with File c => [(fst e, c)] | Dir _ => [] end) entries.

(** [os.walk(top)] on the node found at [top]: one triple per directory, the
    directory before its subdirectories. *)
Fixpoint walk_node (top : str) (n : node) : list (str * list str * list (str * str)) :=
  match n with
  | File _ => []
  | Dir entries =>
      (top, dirnames entries, filenames entries)
      :: flat_map (fun e => walk_node (OsPath.join top [fst e]) (snd e)) entries
  end.

(** The descendants of a node, as [rglob("*")] lists them: the entries of a
    directory, then the descendants of its subdirectories.  Each comes with
    its parts below the node. *)
Fixpoint rglob_node (n : node) : list (list str * node) :=
  match n with
  | File _ => []
  | Dir entries =>
      ((fun e => ([fst e], snd e)) <$> entries)
      ++ flat_map (fun e => (fun d => (fst e :: fst d, snd d)) <$> rglob_node (snd e)) entries
  end.

(* ================================================================== *)
(** ** The hosting environment *)
(* ================================================================== *)

(** [cosmos.settings] *)
Record Settings := {
  remote_target_path : option str;
  remote_target_path_conn_id : option str;
  AIRFLOW_IO_AVAILABLE : bool;
}.

(** What a callback finds around it.  [FILE_SCHEME_AIRFLOW_DEFAULT_CONN_ID_MAP]
    is a constant of [cosmos.constants]; [refused] tells the objects the
    remote store does not accept (no permission, no such bucket);
    [read_error] gives the exception raised by reading a file that cannot be
    read; [json_error_text] is the text of the [JSONDecodeError] for a
    document that [json.loads] refuses; [current_context] is what
    [get_current_context()] finds. *)
Record Host := {
  cwd : str;
  fs : str -> option node;
  read_error : str -> option exn;
  json_error_text : str -> str;
  settings : Settings;
  airflow_version : str;
  FILE_SCHEME_AIRFLOW_DEFAULT_CONN_ID_MAP : gmap str str;
  refused : str * str -> bool;
  current_context : option Context;
}.

Definition os_walk (h : Host) (top : str) : list (str * list str * list (str * str)) :=
  match fs h top with
  | Some n => walk_node top n
  | None => []
  end.

(** [p.rglob("*")], each path with the node it names. *)
Definition rglob (h : Host) (p : Pathlib.Path) : list (Pathlib.Path * node) :=
  match fs h (Pathlib.to_str p) with
  | Some n => (fun d => (Pathlib.joinpath p (fst d), snd d)) <$> rglob_node n
  | None => []
  end.

(** Python's truth value of an optional string: [None] and the empty string
    are false. *)
Definition truthy (s : option str) : bool :=
  match s with
  | Some (_ :: _) => true
  | _ => false
  end.

(* ================================================================== *)
(** ** The remote store and the effects of a callback *)
(* ================================================================== *)

(** An object is named by the place that holds it (bucket, container or
    connection) and its key.  The directories made by [mkdir] are kept apart;
    the directories above them are not tracked. *)
Record Remote := {
  objects : gmap (str * str) str;
  directories : gset (str * str);
}.

(** A computation that reads and writes the remote store and may raise.  What
    was written before an exception stays written. *)
Definition io (A : Type) : Type := Remote -> result A * Remote.

#[global] Instance io_ret : MRet io := fun _ a r => (Ok a, r).
#[global] Instance io_bind : MBind io := fun _ _ f m r =>
  match m r with
  | (Ok a, r') => f a r'
  | (Raise e, r') => (Raise e, r')
  end.

Definition raise {A} (e : exn) : io A := fun r => (Raise e, r).

Definition lift {A} (m : result A) : io A := fun r => (m, r).

(** [for x in l: body(x)] *)
Fixpoint for_each {A} (l : list A) (body : A -> io unit) : io unit :=
  match l with
  | [] => mret tt
  | x :: l' => body x ≫= fun _ => for_each l' body
  end.

(** The upload capability of a backend: writes [content] at [name].  Without
    [overwrite] an object that exists is an error. *)
Definition upload_file (h : Host) (name : str * str) (content : str) (overwrite : bool)
  : io unit := fun r =>
  if refused h name then (Raise (TransportError (snd name)), r)
  else if negb overwrite && bool_decide (is_Some (objects r !! name))
  then (Raise (ValueError (py "The key " ++ snd name ++ py " already exists.")), r)
  else (Ok tt, {| objects := <[name := content]> (objects r);
                  directories := directories r |}).

(** [S3Hook.load_file(filename, key, bucket_name, replace)] *)
Definition S3Hook_load_file (h : Host) (aws_conn_id filename content bucket_name key : str)
    (replace : bool) : io unit :=
  upload_file h (bucket_name, key) content replace.

(** [GCSHook.upload(bucket_name, object_name, filename)]: the store replaces
    an object of the same name. *)
Definition GCSHook_upload (h : Host) (gcp_conn_id bucket_name object_name filename content : str)
  : io unit :=
  upload_file h (bucket_name, object_name) content true.

(** [WasbHook.load_file(file_path, container_name, blob_name, overwrite)] *)
Definition WasbHook_load_file (h : Host)
    (wasb_conn_id file_path content container_name blob_name : str) (overwrite : bool)
  : io unit :=
  upload_file h (container_name, blob_name) content overwrite.

(** [ObjectStoragePath(path, conn_id=conn_id)] *)
Record ObjectStoragePath := { osp_path : str; osp_conn_id : option str }.

Definition osp_place (p : ObjectStoragePath) : str * str :=
  (default [] (osp_conn_id p), osp_path p).

Definition osp_exists (p : ObjectStoragePath) : io bool := fun r =>
  (Ok (bool_decide (osp_place p ∈ directories r)
       || bool_decide (is_Some (objects r !! osp_place p))), r).

Definition osp_mkdir (h : Host) (p : ObjectStoragePath) : io unit := fun r =>
  if refused h (osp_place p) then (Raise (TransportError (osp_path p)), r)
  else (Ok tt, {| objects := objects r;
                  directories := {[ osp_place p ]} ∪ directories r |}).

(** [ObjectStoragePath(file_path).copy(dst)] of a local file: the store
    replaces an object of the same name. *)
Definition osp_copy (h : Host) (file_path content : str) (dst : ObjectStoragePath) : io unit :=
  upload_file h (osp_place dst) content true.

(* ================================================================== *)
(** ** [urllib.parse] *)
(* ================================================================== *)

Module UrlParse.

Definition scheme_chars : str :=
  py "abcdefghijklmnopqrstuvwxyzABCDEFGHIJKLMNOPQRSTUVWXYZ0123456789+-.".

Definition is_c0_control_or_space (c : char) : bool := N.leb c 32.

Definition is_unsafe (c : char) : bool :=
  N.eqb c 9 || N.eqb c 10 || N.eqb c 13.

Definition is_ascii_alpha (c : char) : bool :=
  (N.leb 65 c && N.leb c 90) || (N.leb 97 c && N.leb c 122).

(** [c.lower()] on the characters of a scheme. *)
Definition lower (c : char) : char :=
  if N.leb 65 c && N.leb c 90 then (c + 32)%N else c.

(** [url[:url.find(":")]], when there is a colon. *)
Fixpoint before_colon (url : str) : option str :=
  match url with
  | [] => None
  | c :: url' =>
      if N.eqb c 58 then Some []
      else cons c <$> before_colon url'
  end.

(** [urlparse(url).scheme]: leading controls and spaces are dropped, tabs and
    line ends removed; what stands before the first colon is the scheme when
    it starts with a letter and is made of scheme characters. *)
Definition scheme (url : str) : str :=
  let url := List.filter (fun c => negb (is_unsafe c))
               (drop_while is_c0_control_or_space url) in
  match before_colon url with
  | Some (c :: rest) =>
      if is_ascii_alpha c
         && forallb (fun x => existsb (N.eqb x) scheme_chars) (c :: rest)
      then lower <$> (c :: rest)
      else []
  | _ => []
  end.

End UrlParse.

(* ================================================================== *)
(** ** [_configure_remote_target_path] *)
(* ================================================================== *)

(** The message of the error raised when Airflow has no Object Storage. *)
Definition io_unavailable_message (h : Host) (target_path_str : str) : str :=
  py "You're trying to specify remote target path " ++ target_path_str
  ++ py ", but the required Object Storage feature is unavailable in Airflow version "
  ++ airflow_version h ++ py ". Please upgrade to Airflow 2.8 or later.".

Definition _configure_remote_target_path (h : Host)
  : io (option ObjectStoragePath * option str) :=
  if negb (truthy (remote_target_path (settings h))) then mret (None, None)
  else
    let target_path_str := default [] (remote_target_path (settings h)) in
    let remote_conn_id :=
      if negb (truthy (remote_target_path_conn_id (settings h))) then
        let target_path_schema := UrlParse.scheme target_path_str in
        FILE_SCHEME_AIRFLOW_DEFAULT_CONN_ID_MAP h !! target_path_schema
      else remote_target_path_conn_id (settings h) in
    match remote_conn_id with
    | None => mret (None, None)
    | Some conn_id =>
        if negb (AIRFLOW_IO_AVAILABLE (settings h))
        then raise (CosmosValueError (io_unavailable_message h target_path_str))
        else
          let _configured_target_path :=
            {| osp_path := target_path_str; osp_conn_id := Some conn_id |} in
          found ← osp_exists _configured_target_path;
          (if negb found then osp_mkdir h _configured_target_path else mret tt) ;;
          mret (Some _configured_target_path, Some conn_id)
    end.

(* ================================================================== *)
(** ** The publishers *)
(* ================================================================== *)

(** [a or b] on attempt counters: [0] is false. *)
Definition or_else (a : Z) (b : result Z) : result Z :=
  if Z.eqb a 0 then b else Ok a.

(** [l[-1]] *)
Definition last_item (l : list str) : str := List.last l [].

Definition upload_to_aws_s3 (h : Host) (project_dir bucket_name : str)
    (aws_conn_id : option str) (source_subpath : str) (kwargs : Kwargs) : io unit :=
  let target_dir := project_dir ++ py "/" ++ source_subpath in
  let aws_conn_id :=
    if truthy aws_conn_id then default [] aws_conn_id else py "aws_default" in
  context ← lift (kwargs_context kwargs);
  try_number ← lift (a ← getattr (py "try_number") (try_number (task_instance context));
                     or_else a (getattr (py "_try_number")
                                  (_try_number (task_instance context))));
  for_each (os_walk h target_dir) (fun '(dirpath, _, filenames) =>
    for_each filenames (fun '(filename, content) =>
      pieces ← lift (str_split project_dir dirpath);
      let s3_key :=
        dag_id context
        ++ py "/" ++ run_id context
        ++ py "/" ++ task_id (task_instance context)
        ++ py "/" ++ str_of_int try_number
        ++ last_item pieces ++ py "/" ++ filename in
      S3Hook_load_file h aws_conn_id (dirpath ++ py "/" ++ filename) content
        bucket_name s3_key true)).

Definition upload_to_gcp_gs (h : Host) (project_dir bucket_name : str)
    (gcp_conn_id : option str) (source_subpath : str) (kwargs : Kwargs) : io unit :=
  let target_dir := OsPath.join project_dir [source_subpath] in
  let conn_id :=
    if truthy gcp_conn_id then default [] gcp_conn_id else py "google_cloud_default" in
  for_each (os_walk h target_dir) (fun '(root, _, files) =>
    for_each files (fun '(file, content) =>
      let file_path := OsPath.join root [file] in
      destination_file_path ←
        lift (OsPath.relpath (cwd h) file_path (OsPath.join project_dir [OsPath.pardir]));
      GCSHook_upload h conn_id bucket_name destination_file_path file_path content)).

Definition upload_to_azure_wasb (h : Host) (project_dir container_name : str)
    (azure_conn_id : option str) (source_subpath : str) (kwargs : Kwargs) : io unit :=
  let target_dir := project_dir ++ py "/" ++ source_subpath in
  let azure_conn_id :=
    if truthy azure_conn_id then default [] azure_conn_id else py "wasb_default" in
  context ← lift (kwargs_context kwargs);
  for_each (os_walk h target_dir) (fun '(dirpath, _, filenames) =>
    for_each filenames (fun '(filename, content) =>
      try_number ← lift (getattr (py "_try_number") (_try_number (task_instance context)));
      pieces ← lift (str_split project_dir dirpath);
      let blob_name :=
        dag_id context
        ++ py "/" ++ run_id context
        ++ py "/" ++ task_id (task_instance context)
        ++ py "/" ++ str_of_int try_number
        ++ last_item pieces ++ py "/" ++ filename in
      WasbHook_load_file h azure_conn_id (dirpath ++ py "/" ++ filename) content
        container_name blob_name true)).

(** The regular files below [source_target_dir], as text, each with its
    content. *)
Definition files_of (h : Host) (source_target_dir : Pathlib.Path) : list (str * str) :=
  flat_map (fun f => match snd f with
                     | File content => [(Pathlib.to_str (fst f), content)]
                     | Dir _ => []
                     end)
           (rglob h source_target_dir).

Definition not_configured_message : str :=
  py "You're trying to upload artifact files, but the remote target path is not configured.".

Definition upload_to_cloud_storage (h : Host) (project_dir source_subpath : str)
    (kwargs : Kwargs) : io unit :=
  '(dest_target_dir, dest_conn_id) ← _configure_remote_target_path h;
  match dest_target_dir with
  | None => raise (CosmosValueError not_configured_message)
  | Some dest_target_dir =>
      let source_target_dir := Pathlib.div (Pathlib.of_str project_dir) source_subpath in
      let files := files_of h source_target_dir in
      for_each files (fun '(file_path, content) =>
        dest_file_path ←
          lift (_construct_dest_file_path (cwd h) (osp_path dest_target_dir) file_path
                  (Pathlib.to_str source_target_dir) source_subpath kwargs);
        let dest_object_storage_path :=
          {| osp_path := dest_file_path; osp_conn_id := dest_conn_id |} in
        osp_copy h file_path content dest_object_storage_path)
  end.

(* ================================================================== *)
(** ** [re]: the patterns made of characters and repeated classes *)
(* ================================================================== *)

Module Re.

(** A pattern is a sequence of atoms: a character, or a class of characters
    repeated any number of times, as many as possible first. *)
Inductive atom : Type :=
  | Chr (c : char)
  | Star (class : char -> bool).

(** The match of a pattern at the start of a text: the text each atom took.
    A repetition takes the longest run with which the rest still matches. *)
Fixpoint match_here (atoms : list atom) (s : str) {struct atoms} : option (list str) :=
  match atoms with
  | [] => Some []
  | Chr c :: atoms' =>
      match s with
      | x :: s' => if N.eqb x c then cons [x] <$> match_here atoms' s' else None
      | [] => None
      end
  | Star class :: atoms' =>
      (fix star (s : str) : option (list str) :=
         let stop := cons [] <$> match_here atoms' s in
         match s with
         | x :: s' =>
             if class x then
               match star s' with
               | Some (m :: ms) => Some ((x :: m) :: ms)
               | _ => stop
               end
             else stop
         | [] => stop
         end) s
  end.

(** [re.search]: the match at the leftmost position that has one. *)
Fixpoint search (atoms : list atom) (s : str) : option (list str) :=
  match match_here atoms s with
  | Some m => Some m
  | None => match s with
            | [] => None
            | _ :: s' => search atoms s'
            end
  end.

(** [\s] on text: the white space of Unicode. *)
Definition is_space (c : char) : bool :=
  (N.leb 9 c && N.leb c 13) || (N.leb 28 c && N.leb c 32)
  || N.eqb c 133 || N.eqb c 160 || N.eqb c 5760
  || (N.leb 8192 c && N.leb c 8202) || N.eqb c 8232 || N.eqb c 8233
  || N.eqb c 8239 || N.eqb c 8287 || N.eqb c 12288.

End Re.

(* ================================================================== *)
(** ** [json] *)
(* ================================================================== *)

Module Json.

(** A decoded document.  A number with a fraction or an exponent keeps its
    text; the members of an object are kept in the order of the document. *)
Inductive value : Type :=
  | Null
  | Bool (b : bool)
  | Int (n : Z)
  | Float (literal : str)
  | Str (s : str)
  | Array (items : list value)
  | Object (members : list (str * value)).

Definition is_ws (c : char) : bool :=
  N.eqb c 32 || N.eqb c 9 || N.eqb c 10 || N.eqb c 13.

Definition is_digit (c : char) : bool := N.leb 48 c && N.leb c 57.

Definition hex_digit (c : char) : option N :=
  if is_digit c then Some (c - 48)%N
  else if N.leb 97 c && N.leb c 102 then Some (c - 87)%N
  else if N.leb 65 c && N.leb c 70 then Some (c - 55)%N
  else None.

(** The four hexadecimal digits of a [\u] escape. *)
Definition hex4 (s : str) : option (N * str) :=
  match s with
  | a :: b :: c :: d :: rest =>
      a ← hex_digit a; b ← hex_digit b; c ← hex_digit c; d ← hex_digit d;
      Some (((a * 16 + b) * 16 + c) * 16 + d, rest)%N
  | _ => None
  end.

(** The text of a string after its opening quote, up to the closing one.  A
    control character is refused; a high surrogate followed by a low one
    makes one character. *)
Fixpoint scanstring (fuel : nat) (s : str) : option (str * str) :=
  match fuel with
  | O => None
  | S fuel =>
      match s with
      | [] => None
      | 34%N :: rest => Some ([], rest)
      | 92%N :: e :: rest =>
          let simple (c : char) := '(t, rest') ← scanstring fuel rest; Some (c :: t, rest') in
          match e with
          | 34%N => simple 34%N
          | 92%N => simple 92%N
          | 47%N => simple 47%N
          | 98%N => simple 8%N
          | 102%N => simple 12%N
          | 110%N => simple 10%N
          | 114%N => simple 13%N
          | 116%N => simple 9%N
          | 117%N =>
              '(uni, rest1) ← hex4 rest;
              let single := '(t, rest') ← scanstring fuel rest1; Some (uni :: t, rest') in
              if N.leb 55296 uni && N.leb uni 56319 then
                match rest1 with
                | 92%N :: 117%N :: rest2 =>
                    match hex4 rest2 with
                    | Some (uni2, rest3) =>
                        if N.leb 56320 uni2 && N.leb uni2 57343 then
                          '(t, rest') ← scanstring fuel rest3;
                          Some ((65536 + ((uni - 55296) * 1024 + (uni2 - 56320)))%N :: t, rest')
                        else single
                    | None => single
                    end
                | _ => single
                end
              else single
          | _ => None
          end
      | 92%N :: [] => None
      | c :: rest =>
          if N.ltb c 32 then None
          else '(t, rest') ← scanstring fuel rest; Some (c :: t, rest')
      end
  end.

(** The longest run of digits at the start of a text, and what follows. *)
Fixpoint digits (s : str) : str * str :=
  match s with
  | c :: rest => if is_digit c then let '(d, r) := digits rest in (c :: d, r) else ([], s)
  | [] => ([], [])
  end.

Definition nat_of_digits (d : str) : Z :=
  foldl (fun acc c => (acc * 10 + Z.of_N (c - 48))%Z) 0%Z d.

(** A number: an optional minus sign; a zero, or digits that do not start
    with a zero; then, optionally, a point and digits; then, optionally, an
    exponent mark, a sign and digits.  With a fraction or an exponent the
    number is a float. *)
Definition scan_number (s : str) : option (value * str) :=
  let '(sign, s1) := match s with 45%N :: r => ([45%N], r) | _ => ([], s) end in
  let '(int_part, s2) :=
    match s1 with
    | 48%N :: r => ([48%N], r)
    | _ => digits s1
    end in
  match int_part with
  | [] => None
  | _ :: _ =>
      let '(frac, s3) :=
        match s2 with
        | 46%N :: r => match digits r with
                       | ([], _) => ([], s2)
                       | (d, r') => (46%N :: d, r')
                       end
        | _ => ([], s2)
        end in
      let '(exp, s4) :=
        match s3 with
        | e :: r =>
            if N.eqb e 101 || N.eqb e 69 then
              let '(sg, r1) := match r with
                               | c :: r' => if N.eqb c 45 || N.eqb c 43 then ([c], r') else ([], r)
                               | [] => ([], r)
                               end in
              match digits r1 with
              | ([], _) => ([], s3)
              | (d, r') => (e :: sg ++ d, r')
              end
            else ([], s3)
        | [] => ([], s3)
        end in
      match frac, exp with
      | [], [] =>
          let n := nat_of_digits int_part in
          Some (Int (match sign with [] => n | _ => (- n)%Z end), s4)
      | _, _ => Some (Float (sign ++ int_part ++ frac ++ exp), s4)
      end
  end.

Definition skip_ws (s : str) : str := drop_while is_ws s.

(** When [s] starts with [word], what follows it. *)
Definition after (word s : str) : option str :=
  if startswith word s then Some (drop (length word) s) else None.

(** [scan_once]: one value at the start of the text, and what follows;
    [scan_items] reads the items of an array after the first bracket or a
    comma, [scan_members] the members of an object likewise. *)
Fixpoint scan_once (fuel : nat) (s : str) : option (value * str) :=
  match fuel with
  | O => None
  | S fuel =>
      match s with
      | 34%N :: rest => '(t, rest') ← scanstring (S (length rest)) rest; Some (Str t, rest')
      | 123%N :: rest =>
          match skip_ws rest with
          | 125%N :: rest' => Some (Object [], rest')
          | rest' => '(ms, rest'') ← scan_members fuel rest'; Some (Object ms, rest'')
          end
      | 91%N :: rest =>
          match skip_ws rest with
          | 93%N :: rest' => Some (Array [], rest')
          | rest' => '(vs, rest'') ← scan_items fuel rest'; Some (Array vs, rest'')
          end
      | _ =>
          match after (py "null") s, after (py "true") s, after (py "false") s with
          | Some rest, _, _ => Some (Null, rest)
          | _, Some rest, _ => Some (Bool true, rest)
          | _, _, Some rest => Some (Bool false, rest)
          | _, _, _ =>
              match scan_number s with
              | Some r => Some r
              | None =>
                  match after (py "NaN") s, after (py "Infinity") s, after (py "-Infinity") s with
                  | Some rest, _, _ => Some (Float (py "NaN"), rest)
                  | _, Some rest, _ => Some (Float (py "Infinity"), rest)
                  | _, _, Some rest => Some (Float (py "-Infinity"), rest)
                  | _, _, _ => None
                  end
              end
          end
      end
  end
with scan_items (fuel : nat) (s : str) : option (list value * str) :=
  match fuel with
  | O => None
  | S fuel =>
      '(v, rest) ← scan_once fuel s;
      match skip_ws rest with
      | 93%N :: rest' => Some ([v], rest')
      | 44%N :: rest' =>
          '(vs, rest'') ← scan_items fuel (skip_ws rest'); Some (v :: vs, rest'')
      | _ => None
      end
  end
with scan_members (fuel : nat) (s : str) : option (list (str * value) * str) :=
  match fuel with
  | O => None
  | S fuel =>
      match s with
      | 34%N :: rest =>
          '(key, rest1) ← scanstring (S (length rest)) rest;
          match skip_ws rest1 with
          | 58%N :: rest2 =>
              '(v, rest3) ← scan_once fuel (skip_ws rest2);
              match skip_ws rest3 with
              | 125%N :: rest4 => Some ([(key, v)], rest4)
              | 44%N :: rest4 =>
                  '(ms, rest5) ← scan_members fuel (skip_ws rest4);
                  Some ((key, v) :: ms, rest5)
              | _ => None
              end
          | _ => None
          end
      | _ => None
      end
  end.

(** [json.loads(s)]: one value between white space, [None] for a text that
    is not a document ([JSONDecodeError]), as is a text that starts with a
    byte order mark.  A call of one of the three scanners starts further in
    the text than the call of the same scanner around it, so twice the
    length of the text is fuel enough. *)
Definition loads (s : str) : option value :=
  if startswith [65279%N] s then None
  else
    match scan_once (2 * length s + 2) (skip_ws s) with
    | Some (v, rest) => match skip_ws rest with [] => Some v | _ :: _ => None end
    | None => None
    end.

(** [d.get(key, default)] on the members of an object: a key written twice
    keeps its last value. *)
Definition get (members : list (str * value)) (key : str) (default : value) : value :=
  match List.find (fun m => bool_decide (fst m = key)) (rev members) with
  | Some m => snd m
  | None => default
  end.

End Json.

(* ================================================================== *)
(** ** [_extract_show_list] and [log_to_xcom] *)
(* ================================================================== *)

Definition quote : str := [34%N].

(** The pattern: the key [show] in quotes, white space, a colon, white space,
    then the group: a bracket, characters other than a closing bracket, a
    closing bracket. *)
Definition show_pattern : list Re.atom :=
  (Re.Chr <$> quote ++ py "show" ++ quote)
  ++ [Re.Star Re.is_space; Re.Chr 58%N; Re.Star Re.is_space]
  ++ [Re.Chr 91%N; Re.Star (fun c => negb (N.eqb c 93)); Re.Chr 93%N].

(** [match.group(1)]: the text of the three atoms of the group, which come
    after the nine atoms before it. *)
Definition group_1 (m : list str) : str := concat (drop 9 m).

Definition not_found_message : str := py "Could not find 'show' JSON array in string.".

Definition decoding_failed_message (detail : str) : str :=
  py "JSON decoding failed: " ++ detail.

Definition _extract_show_list (h : Host) (log_string : str) : result Json.value :=
  match Re.search show_pattern log_string with
  | None => Raise (ValueError not_found_message)
  | Some m =>
      let json_array_str := group_1 m in
      let json_str := py "{" ++ quote ++ py "show" ++ quote ++ py ": "
                      ++ json_array_str ++ py "}" in
      match Json.loads json_str with
      | None => Raise (ValueError (decoding_failed_message (json_error_text h json_str)))
      | Some (Json.Object data) => Ok (Json.get data (py "show") (Json.Array []))
      | Some _ => Raise (AttributeError (py "get"))
      end
  end.

(** [open(path).read()] *)
Definition open_read (h : Host) (path : str) : result str :=
  match fs h path with
  | Some (File content) =>
      match read_error h path with
      | Some error => Raise error
      | None => Ok content
      end
  | Some (Dir _) => Raise (OSError (py "[Errno 21] Is a directory: '" ++ path ++ py "'"))
  | None => Raise (OSError (py "[Errno 2] No such file or directory: '" ++ path ++ py "'"))
  end.

(** [get_current_context()] *)
Definition get_current_context (h : Host) : result Context :=
  match current_context h with
  | Some context => Ok context
  | None =>
      Raise (AirflowException
               (py "Current context was requested but no context was found! Are you running within an airflow task?"))
  end.

(** The text [log_to_xcom] takes for the content of the log. *)
Definition log_content_of (h : Host) (log_path : Pathlib.Path) : str :=
  if bool_decide (is_Some (fs h (Pathlib.to_str log_path))) then
    match open_read h (Pathlib.to_str log_path) with
    | Ok content => content
    | Raise error =>
        py "Error reading log file " ++ Pathlib.to_str log_path ++ py ": " ++ exn_text error
    end
  else py "Log file not found: " ++ Pathlib.to_str log_path.

(** The XCom table of the running task is a map from keys to values; the
    callback ends with the table it leaves. *)
Definition log_to_xcom (h : Host) (project_dir log_relative_path xcom_key : str)
    (xcom : gmap str Json.value) : result unit * gmap str Json.value :=
  let log_path := Pathlib.div (Pathlib.of_str project_dir) log_relative_path in
  let log_content := log_content_of h log_path in
  match get_current_context h with
  | Raise e => (Raise e, xcom)
  | Ok context =>
      match _extract_show_list h log_content with
      | Raise e => (Raise e, xcom)
      | Ok json_content => (Ok tt, <[xcom_key := json_content]> xcom)
      end
  end.

(* ================================================================== *)
(** ** Vocabulary of the statements *)
(* ================================================================== *)

(** The name of a file or of a directory: not empty, not [.] nor [..], and
    without a slash. *)
Definition name_ok (x : str) : Prop :=
  x <> [] /\ x <> OsPath.curdir /\ x <> OsPath.pardir /\ chr_slash ∉ x.


(** The components of a path: what stands between its slashes, but for the
    empty pieces and the dots. *)
Definition components (p : str) : list str :=
  List.filter Pathlib.is_part (split_chr chr_slash p).

(** [file] names what is found below the directory [dir] by following the
    names [rel]. *)
Definition below (dir file : str) (rel : list str) : Prop :=
  OsPath.isabs file = OsPath.isabs dir
  /\ components file = components dir ++ rel
  /\ Forall name_ok rel
  /\ rel <> [].

#[global] Instance name_ok_dec (x : str) : Decision (name_ok x).
Proof. unfold name_ok. apply _. Defined.

#[global] Instance below_dec (dir file : str) (rel : list str) : Decision (below dir file rel).
Proof. unfold below. apply _. Defined.

(** ** Examples *)

(** The run [(d1, r1, t1, 2)]. *)
Definition ctx_example : Context :=
  {| dag_id := py "d1"; run_id := py "r1";
     task_instance := {| task_id := py "t1"; try_number := Some 2%Z;
                         _try_number := Some 2%Z |} |}.

(** The errors of the specification. *)
Definition NotConfigured : exn := CosmosValueError not_configured_message.

Definition CapabilityUnavailable (h : Host) : exn :=
  CosmosValueError
    (io_unavailable_message h (default [] (remote_target_path (settings h)))).

Definition ExtractionError : exn := ValueError not_found_message.


(** A remote root is configured. *)
Definition root_configured (h : Host) : Prop :=
  truthy (remote_target_path (settings h)) = true.

(** The connection id the settings lead to: the explicit one, or else the one
    the table gives for the scheme of the root. *)
Definition resolved_conn_id (h : Host) : option str :=
  if truthy (remote_target_path_conn_id (settings h))
  then remote_target_path_conn_id (settings h)
  else FILE_SCHEME_AIRFLOW_DEFAULT_CONN_ID_MAP h
         !! UrlParse.scheme (default [] (remote_target_path (settings h))).

(** The resolution goes past the cases in which it gives nothing. *)
Definition resolves (h : Host) : Prop :=
  root_configured h /\ is_Some (resolved_conn_id h).


(** The table of the specification. *)
Definition conn_id_map_example : gmap str str :=
  {[ py "s3" := py "aws_default";
     py "gs" := py "google_cloud_default";
     py "abfs" := py "wasb_default" ]}.

(** A project directory [/p] with [target/run/results.json] and
    [target/compiled/q.sql]. *)
Definition target_example : node :=
  Dir [ (py "run", Dir [ (py "results.json", File (py "{}")) ]);
        (py "compiled", Dir [ (py "q.sql", File (py "select 1")) ]) ].

Definition fs_example (path : str) : option node :=
  if bool_decide (path = py "/p/target") then Some target_example
  else if bool_decide (path = py "/p/logs") then Some (Dir [])
  else None.

(** A host with the given settings. *)
Definition host_example (s : Settings) : Host :=
  {| cwd := py "/home/u";
     fs := fs_example;
     read_error := fun _ => None;
     json_error_text := fun _ => py "Expecting value";
     settings := s;
     airflow_version := py "2.7.0";
     FILE_SCHEME_AIRFLOW_DEFAULT_CONN_ID_MAP := conn_id_map_example;
     refused := fun _ => false;
     current_context := Some ctx_example |}.

Definition settings_none : Settings :=
  {| remote_target_path := None; remote_target_path_conn_id := None;
     AIRFLOW_IO_AVAILABLE := false |}.


Definition settings_s3 (available : bool) : Settings :=
  {| remote_target_path := Some (py "s3://bucket");
     remote_target_path_conn_id := None;
     AIRFLOW_IO_AVAILABLE := available |}.

Definition settings_explicit : Settings :=
  {| remote_target_path := Some (py "store://bucket");
     remote_target_path_conn_id := Some (py "my_conn");
     AIRFLOW_IO_AVAILABLE := true |}.

Definition remote_empty : Remote := {| objects := ∅; directories := ∅ |}.

(** [m] found below [n] by following the names [rel]. *)
Inductive reaches : node -> list str -> node -> Prop :=
  | reaches_entry (entries : list (str * node)) (name : str) (child : node) :
      (name, child) ∈ entries -> reaches (Dir entries) [name] child
  | reaches_below (entries : list (str * node)) (name : str) (child : node)
      (rel : list str) (m : node) :
      (name, child) ∈ entries -> reaches child rel m ->
      reaches (Dir entries) (name :: rel) m.


(** The store after the objects [pairs] have been written one after the
    other, each replacing what its name held. *)
Definition put_all (m : gmap (str * str) str) (pairs : list ((str * str) * str))
  : gmap (str * str) str :=
  foldl (fun m p => <[p.1 := p.2]> m) m pairs.

(** The content written last under [name] by [pairs]. *)
Fixpoint written_last (pairs : list ((str * str) * str)) (name : str * str) : option str :=
  match pairs with
  | [] => None
  | p :: pairs' =>
      match written_last pairs' name with
      | Some v => Some v
      | None => if bool_decide (p.1 = name) then Some p.2 else None
      end
  end.

(** A piece of a path that [normpath] keeps. *)
Definition kept (x : str) : Prop := x <> [] /\ chr_slash ∉ x.

(** A round of a loop of uploads: the name of the object is worked out,
    which may raise, and the content is written under it. *)
Definition upload_round {A} (h : Host) (name_of : A -> result (str * str))
    (content_of : A -> str) (x : A) : io unit :=
  n ← lift (name_of x); upload_file h n (content_of x) true.

(** What a round did when it went well. *)
Definition uploaded {A} (h : Host) (name_of : A -> result (str * str))
    (content_of : A -> str) (x : A) (p : (str * str) * str) : Prop :=
  name_of x = Ok p.1 /\ p.2 = content_of x /\ refused h p.1 = false.


(** The store the example project is published to, and what it holds
    afterwards. *)
Definition remote_after_example : Remote :=
  (upload_to_cloud_storage (host_example settings_explicit) (py "/p") (py "target")
     (Some ctx_example) remote_empty).2.

(** The files [os.walk] comes across: the directory, then the name and the
    content of the file. *)
Definition walk_files (h : Host) (top : str) : list (str * (str * str)) :=
  flat_map (fun t => (fun f => (t.1.1, f)) <$> t.2) (os_walk h top).

(** The fields of the run at the head of a key. *)
Definition run_prefix (context : Context) (n : Z) : str :=
  dag_id context
  ++ py "/" ++ run_id context
  ++ py "/" ++ task_id (task_instance context)
  ++ py "/" ++ str_of_int n.

(** The name [upload_to_aws_s3] and [upload_to_azure_wasb] give to the object
    of a file. *)
Definition hook_name (project_dir place : str) (context : Context) (attempt : result Z)
    (x : str * (str * str)) : result (str * str) :=
  n ← attempt;
  pieces ← str_split project_dir x.1;
  Ok (place, run_prefix context n ++ last_item pieces ++ py "/" ++ x.2.1).

(** The name [upload_to_gcp_gs] gives to the object of a file. *)
Definition gcs_name (h : Host) (project_dir bucket_name : str) (x : str * (str * str))
  : result (str * str) :=
  d ← OsPath.relpath (cwd h) (OsPath.join x.1 [x.2.1])
        (OsPath.join project_dir [OsPath.pardir]);
  Ok (bucket_name, d).

(** The attempt [upload_to_aws_s3] reads from the context. *)
Definition s3_attempt (context : Context) : result Z :=
  a ← getattr (py "try_number") (try_number (task_instance context));
  or_else a (getattr (py "_try_number") (_try_number (task_instance context))).

(** The four publishers.  [place] is the bucket or the container of a named
    backend; the generic publisher takes its place from the settings. *)
Inductive Publisher : Type := AwsS3 | GcpGs | AzureWasb | CloudStorage.

Definition publish (v : Publisher) (h : Host) (project_dir place : str)
    (conn_id : option str) (source_subpath : str) (kwargs : Kwargs) : io unit :=
  match v with
  | AwsS3 => upload_to_aws_s3 h project_dir place conn_id source_subpath kwargs
  | GcpGs => upload_to_gcp_gs h project_dir place conn_id source_subpath kwargs
  | AzureWasb => upload_to_azure_wasb h project_dir place conn_id source_subpath kwargs
  | CloudStorage => upload_to_cloud_storage h project_dir source_subpath kwargs
  end.

(** What an atom of a pattern may take. *)
Definition atom_takes (a : Re.atom) (t : str) : Prop :=
  match a with
  | Re.Chr c => t = [c]
  | Re.Star class => Forall (fun x => class x = true) t
  end.

(** The texts of the three cases of the log extractor, and one with a
    comma before the closing bracket. *)
Definition show_key : str := quote ++ py "show" ++ quote.
Definition show_123 : str := show_key ++ py ": [1,2,3]".

Definition no_quote (s : str) : bool := forallb (fun c => negb (N.eqb c 34)) s.

(** The document [_extract_show_list] hands to [json.loads]. *)
Definition show_document (json_array_str : str) : str :=
  py "{" ++ quote ++ py "show" ++ quote ++ py ": " ++ json_array_str ++ py "}".

(** A host whose log path [/p/logs] is a directory. *)
Definition host_log_example : Host := host_example settings_none.

(** ** Vocabulary of the further statements *)

(** The regular files below the directory at the path [top], by the names
    that lead to each. *)
Definition regular_file_at (h : Host) (top : str) (rel : list str) (content : str) : Prop :=
  exists n, fs h top = Some n /\ reaches n rel (File content).

(** The text [sep] stands somewhere in the text [t]. *)
Definition occurs (sep t : str) : Prop := exists a b, t = a ++ sep ++ b.







(** [occurs], computed. *)
Fixpoint occursb (sep t : str) : bool :=
  startswith sep t || match t with [] => false | _ :: t' => occursb sep t' end.

(** ** Examples of the further statements *)

(** The store after the example project has gone through [upload_to_aws_s3]
    and through [upload_to_gcp_gs]. *)
Definition s3_after_example : Remote :=
  (upload_to_aws_s3 (host_example settings_none) (py "/p") (py "bucket") None
     (py "target") (Some ctx_example) remote_empty).2.

Definition gcs_after_example : Remote :=
  (upload_to_gcp_gs (host_example settings_none) (py "/p") (py "bucket") None
     (py "target") None remote_empty).2.

(** A host whose store refuses the object of [compiled/q.sql]. *)
Definition host_refusing : Host :=
  {| cwd := py "/home/u";
     fs := fs_example;
     read_error := fun _ => None;
     json_error_text := fun _ => py "Expecting value";
     settings := settings_none;
     airflow_version := py "2.7.0";
     FILE_SCHEME_AIRFLOW_DEFAULT_CONN_ID_MAP := conn_id_map_example;
     refused := fun name =>
       bool_decide (name = (py "bucket", py "d1/r1/t1/2/target/compiled/q.sql"));
     current_context := Some ctx_example |}.

(** The run [(d1, r1, t1, 2)] on an Airflow without the private counter, and
    its third attempt. *)
Definition ctx_public_only : Context :=
  {| dag_id := py "d1"; run_id := py "r1";
     task_instance := {| task_id := py "t1"; try_number := Some 2%Z;
                         _try_number := None |} |}.

Definition ctx_third_attempt : Context :=
  {| dag_id := py "d1"; run_id := py "r1";
     task_instance := {| task_id := py "t1"; try_number := Some 3%Z;
                         _try_number := Some 3%Z |} |}.


(** ** Vocabulary of the statements on the decoded list *)

(** A decoded value that is a list, or an object that holds one at some
    depth. *)
Fixpoint has_list (v : Json.value) : bool :=
  match v with
  | Json.Array _ => true
  | Json.Object members => existsb (fun m => has_list (snd m)) members
  | _ => false
  end.

(** The number of closing brackets of a text. *)
Definition closings (t : str) : nat := length (List.filter (fun c => N.eqb c 93) t).

(** What the scanners of [json] keep.  What follows a value is the end of
    the text it was read from; a text that starts with a bracket gives a list
    and is read up to a closing bracket; a value read without passing a
    closing bracket holds no list. *)
Definition scan_once_spec (fuel : nat) : Prop :=
  forall s v rest, Json.scan_once fuel s = Some (v, rest) ->
    rest `suffix_of` s
    /\ (forall s', s = 91%N :: s' ->
          exists vs, v = Json.Array vs /\ 93%N :: rest `suffix_of` s'
                     /\ (closings s' <= S (closings rest) -> existsb has_list vs = false))
    /\ (closings s <= closings rest -> has_list v = false).

Definition scan_items_spec (fuel : nat) : Prop :=
  forall s vs rest, Json.scan_items fuel s = Some (vs, rest) ->
    93%N :: rest `suffix_of` s
    /\ (closings s <= S (closings rest) -> existsb has_list vs = false).

Definition scan_members_spec (fuel : nat) : Prop :=
  forall s ms rest, Json.scan_members fuel s = Some (ms, rest) ->
    rest `suffix_of` s
    /\ (closings s <= closings rest -> existsb (fun m => has_list (snd m)) ms = false).

(** A host whose log [/p/logs/dbt.log] holds a line with the list. *)
Definition host_with_log : Host :=
  {| cwd := py "/home/u";
     fs := fun path =>
       if bool_decide (path = py "/p/logs/dbt.log")
       then Some (File (py "12:00:01 [info] {" ++ show_123 ++ py "}"))
       else None;
     read_error := fun _ => None;
     json_error_text := fun _ => py "Expecting value";
     settings := settings_none;
     airflow_version := py "2.7.0";
     FILE_SCHEME_AIRFLOW_DEFAULT_CONN_ID_MAP := conn_id_map_example;
     refused := fun _ => false;
     current_context := Some ctx_example |}.

(** A line whose list holds a number, an empty object and [null]. *)
Definition show_mixed : str := show_key ++ py ": [1, {}, null]".



(* ================================================================== *)
(** * Properties *)
(* ================================================================== *)

(** ** Facts on strings *)

Section StrFacts.

Variable c : char.

Lemma split_chr_not_nil (s : str) : split_chr c s <> [].
Proof.
  destruct s as [|x s]; simpl; [done|].
  destruct (N.eqb x c); [done|]. by destruct (split_chr c s).
Qed.

Lemma split_chr_app (a b : str) :
  split_chr c (a ++ c :: b) = split_chr c a ++ split_chr c b.
Proof.
  induction a as [|x a IH]; simpl.
  - by rewrite N.eqb_refl.
  - destruct (N.eqb x c); [by rewrite IH|].
    rewrite IH. pose proof (split_chr_not_nil a) as Hne.
    by destruct (split_chr c a).
Qed.

Lemma split_chr_free (s : str) : c ∉ s -> split_chr c s = [s].
Proof.
  induction s as [|x s IH]; intros Hc; simpl; [done|].
  apply not_elem_of_cons in Hc as [Hx Hs].
  destruct (N.eqb_spec x c) as [->|_]; [done|]. by rewrite IH.
Qed.

Lemma split_chr_pieces (s : str) : Forall (fun x => c ∉ x) (split_chr c s).
Proof.
  induction s as [|x s IH]; simpl.
  - repeat constructor. apply not_elem_of_nil.
  - destruct (N.eqb_spec x c) as [->|Hx].
    + constructor; [apply not_elem_of_nil | done].
    + destruct (split_chr c s) as [|h t]; inversion IH; subst.
      * repeat constructor. by apply not_elem_of_cons; split; [|apply not_elem_of_nil].
      * constructor; [|done]. by apply not_elem_of_cons.
Qed.

Lemma join_cons (a : str) (l : list str) :
  PyStr.join [c] (a :: l) = a ++ concat ((fun x => c :: x) <$> l).
Proof.
  revert a. induction l as [|b l IH]; intros a.
  - simpl. by rewrite app_nil_r.
  - change (PyStr.join [c] (a :: b :: l)) with (a ++ [c] ++ PyStr.join [c] (b :: l)).
    rewrite IH. by simpl.
Qed.

Lemma split_chr_join (l : list str) :
  l <> [] -> Forall (fun x => c ∉ x) l -> split_chr c (PyStr.join [c] l) = l.
Proof.
  induction l as [|a l IH]; [done|]. intros _ Hl.
  inversion Hl as [|? ? Ha Hl']; subst.
  destruct l as [|b l].
  - simpl. by apply split_chr_free.
  - change (PyStr.join [c] (a :: b :: l)) with (a ++ c :: PyStr.join [c] (b :: l)).
    rewrite split_chr_app, split_chr_free by done. by rewrite IH.
Qed.

(** On a separator of one character, [s.split(sep)] is [split_chr]. *)
Lemma split_from_chr (cur s : str) :
  split_from [c] 0 cur s
  = match split_chr c s with
    | h :: t => (rev cur ++ h) :: t
    | [] => []
    end.
Proof.
  revert cur. induction s as [|x s IH]; intros cur.
  - simpl. by rewrite app_nil_r.
  - cbn [split_from split_chr startswith length Nat.sub]. rewrite andb_true_r, N.eqb_sym.
    destruct (N.eqb x c).
    + by rewrite app_nil_r, IH; destruct (split_chr c s) as [|h t] eqn:E;
        [destruct (split_chr_not_nil s)|].
    + rewrite IH. destruct (split_chr c s) as [|h t] eqn:E;
        [by destruct (split_chr_not_nil s)|].
      simpl. by rewrite <- app_assoc.
Qed.

End StrFacts.

(** ** Facts on [os.path] *)

Section OsPathFacts.

Import OsPath.

Lemma sep_eq : sep = [chr_slash].
Proof. reflexivity. Qed.

Lemma name_ok_kept (x : str) : name_ok x -> kept x.
Proof. intros (? & _ & _ & ?). by split. Qed.

Lemma startswith_sep_cons (x : char) (s : str) :
  startswith sep (x :: s) = N.eqb chr_slash x.
Proof. rewrite sep_eq. simpl. by rewrite andb_true_r. Qed.

Lemma startswith_kept (b : str) : kept b -> startswith sep b = false.
Proof.
  intros [Hne Hfree]. destruct b as [|y b]; [done|].
  rewrite startswith_sep_cons. apply N.eqb_neq. intros <-. apply Hfree. by left.
Qed.

Lemma endswith_sep_app (x b : str) : b <> [] -> endswith sep (x ++ b) = endswith sep b.
Proof.
  intros Hb. unfold endswith. rewrite rev_app_distr.
  destruct (rev b) as [|z t] eqn:E.
  - apply (f_equal (@rev _)) in E. rewrite rev_involutive in E. by subst.
  - change (rev sep) with sep. simpl app. by rewrite !startswith_sep_cons.
Qed.

Lemma endswith_kept (b : str) : kept b -> endswith sep b = false.
Proof.
  intros [Hne Hfree]. unfold endswith.
  destruct (rev b) as [|z t] eqn:E.
  - apply (f_equal (@rev _)) in E. rewrite rev_involutive in E. by subst.
  - change (rev sep) with sep. rewrite startswith_sep_cons.
    apply N.eqb_neq. intros <-.
    apply Hfree. apply list_elem_of_In, in_rev. rewrite E. by left.
Qed.

Lemma join_kept (acc : str) (p : list str) :
  acc <> [] -> endswith sep acc = false -> Forall kept p ->
  join acc p = acc ++ concat ((fun x => chr_slash :: x) <$> p).
Proof.
  revert acc. induction p as [|b p IH]; intros acc Hne Hend Hp.
  - simpl. by rewrite app_nil_r.
  - inversion Hp as [|? ? Hb Hp']; subst.
    change (join acc (b :: p)) with (join (join_step acc b) p).
    assert (join_step acc b = acc ++ chr_slash :: b) as ->.
    { unfold join_step.
      by rewrite (startswith_kept b Hb), Hend, bool_decide_eq_false_2 by done. }
    rewrite IH; [| | |done].
    + simpl. by rewrite <- app_assoc.
    + by destruct acc.
    + change (chr_slash :: b) with ([chr_slash] ++ b). rewrite app_assoc.
      rewrite endswith_sep_app by apply Hb. by apply endswith_kept.
Qed.

Lemma join_names (a : str) (p : list str) :
  Forall kept (a :: p) -> join a p = PyStr.join sep (a :: p).
Proof.
  intros Hp. inversion Hp as [|? ? Ha Hp']; subst.
  rewrite sep_eq, join_cons. apply join_kept; [apply Ha | by apply endswith_kept | done].
Qed.

Lemma norm_step_skip (k : nat) (acc : list str) (x : str) :
  Pathlib.is_part x = false -> norm_step k acc x = acc.
Proof.
  unfold Pathlib.is_part, norm_step. intros H.
  destruct (bool_decide (x = [])), (bool_decide (x = curdir)); done.
Qed.

Lemma norm_fold_components (k : nat) (acc : list str) (l : list str) :
  foldl (norm_step k) acc l = foldl (norm_step k) acc (List.filter Pathlib.is_part l).
Proof.
  revert acc. induction l as [|x l IH]; intros acc; simpl; [done|].
  destruct (Pathlib.is_part x) eqn:E; simpl; [apply IH|].
  rewrite norm_step_skip by done. apply IH.
Qed.

Lemma norm_step_name (k : nat) (acc : list str) (x : str) :
  name_ok x -> norm_step k acc x = acc ++ [x].
Proof.
  intros (H1 & H2 & H3 & _). unfold norm_step.
  by rewrite !bool_decide_eq_false_2 by done.
Qed.

Lemma norm_fold_names (k : nat) (acc rel : list str) :
  Forall name_ok rel -> foldl (norm_step k) acc rel = acc ++ rel.
Proof.
  revert acc. induction rel as [|x rel IH]; intros acc Hrel; simpl.
  - by rewrite app_nil_r.
  - inversion Hrel; subst. rewrite norm_step_name by done.
    rewrite IH by done. by rewrite <- app_assoc.
Qed.

Lemma norm_fold_abs (k k' : nat) (acc l : list str) :
  k <> 0 -> k' <> 0 -> foldl (norm_step k) acc l = foldl (norm_step k') acc l.
Proof.
  intros Hk Hk'. revert acc. induction l as [|x l IH]; intros acc; simpl; [done|].
  rewrite IH. f_equal. unfold norm_step.
  by rewrite !(bool_decide_eq_false_2 (_ = 0)) by done.
Qed.

Lemma Forall_removelast {A} (P : A -> Prop) (l : list A) :
  Forall P l -> Forall P (removelast l).
Proof.
  induction l as [|x l IH]; intros H; simpl; [done|].
  inversion H; subst. destruct l; [constructor|]. constructor; [done|]. by apply IH.
Qed.

Lemma norm_fold_kept (k : nat) (acc l : list str) :
  Forall kept acc -> Forall (fun x => chr_slash ∉ x) l ->
  Forall kept (foldl (norm_step k) acc l).
Proof.
  revert acc. induction l as [|x l IH]; intros acc Hacc Hl; simpl; [done|].
  inversion Hl; subst. apply IH; [|done]. unfold norm_step.
  destruct (bool_decide_reflect (x = [])) as [|Hx]; simpl; [done|].
  destruct (bool_decide (x = curdir)); simpl; [done|].
  match goal with |- Forall _ (if ?b then _ else _) => destruct b end.
  - apply Forall_app. split; [done|]. by repeat constructor.
  - by apply Forall_removelast.
Qed.

Lemma filter_nonempty_kept (l : list str) : Forall kept l -> List.filter nonempty l = l.
Proof.
  induction 1 as [|x l [Hx _] _ IH]; simpl; [done|].
  unfold nonempty at 1. rewrite bool_decide_eq_false_2 by done. simpl. by rewrite IH.
Qed.

Lemma isabs_cons (p : str) : isabs p = true -> exists p', p = chr_slash :: p'.
Proof.
  destruct p as [|x p]; [done|]. unfold isabs. rewrite startswith_sep_cons.
  intros ->%N.eqb_eq. eauto.
Qed.

(** The pieces [relpath] compares, for an absolute path: its components,
    with the dots resolved. *)
Lemma normpath_pieces (p : str) :
  isabs p = true ->
  List.filter nonempty (split_chr chr_slash (normpath p))
  = foldl (norm_step 1) [] (components p).
Proof.
  intros Habs. destruct (isabs_cons p Habs) as [p' ->].
  unfold normpath. rewrite bool_decide_eq_false_2 by done.
  set (k := initial_slashes (chr_slash :: p')).
  assert (Hk : k = 1 \/ k = 2).
  { unfold k, initial_slashes. fold (isabs (chr_slash :: p')). rewrite Habs.
    match goal with |- context [if ?b then 2 else 1] => destruct b end; auto. }
  set (comps := foldl (norm_step k) [] (split_chr chr_slash (chr_slash :: p'))).
  assert (Hkept : Forall kept comps).
  { apply norm_fold_kept; [constructor | apply split_chr_pieces]. }
  assert (Hsplit : List.filter nonempty (split_chr chr_slash (PyStr.join sep comps)) = comps).
  { destruct comps as [|a l] eqn:E; [done|].
    rewrite sep_eq, split_chr_join; [by apply filter_nonempty_kept|done|].
    eapply Forall_impl; [exact Hkept|]. by intros ? []. }
  assert (Hcomps : comps = foldl (norm_step 1) [] (components (chr_slash :: p'))).
  { unfold comps, components. rewrite <- norm_fold_components.
    apply norm_fold_abs; lia. }
  rewrite <- Hcomps.
  assert (replicate k chr_slash ++ PyStr.join sep comps <> []) as Hne.
  { destruct Hk as [-> | ->]; done. }
  rewrite bool_decide_eq_false_2 by done.
  destruct Hk as [-> | ->]; simpl; rewrite ?N.eqb_refl; simpl; exact Hsplit.
Qed.

Lemma components_app (a b : str) :
  components (a ++ chr_slash :: b) = components a ++ components b.
Proof. unfold components. by rewrite split_chr_app, List.filter_app. Qed.

Lemma endswith_sep_true (s : str) :
  endswith sep s = true -> exists s', s = s' ++ [chr_slash].
Proof.
  unfold endswith. change (rev sep) with sep.
  destruct (rev s) as [|z t] eqn:E; [done|].
  rewrite startswith_sep_cons. intros <-%N.eqb_eq. exists (rev t).
  apply (f_equal (@rev _)) in E. rewrite rev_involutive in E. by subst.
Qed.

(** [join(cwd, x)] for a relative [x] puts the components of [x] after those
    of [cwd]. *)
Lemma components_join (cwd x : str) :
  isabs cwd = true -> isabs x = false ->
  isabs (join cwd [x]) = true
  /\ components (join cwd [x]) = components cwd ++ components x.
Proof.
  intros Hcwd Hx.
  assert (join cwd [x] = join_step cwd x) as -> by done.
  unfold join_step. fold (isabs x). rewrite Hx.
  assert (cwd <> []) as Hne by (by intros ->).
  rewrite bool_decide_eq_false_2 by done. rewrite orb_false_l.
  destruct (endswith sep cwd) eqn:E.
  - destruct (endswith_sep_true _ E) as [s' ->]. split.
    + destruct (isabs_cons _ Hcwd) as [c' Hc']. by rewrite Hc'.
    + rewrite <- app_assoc. change ([chr_slash] ++ x) with (chr_slash :: x).
      rewrite !components_app. change (components []) with (@nil (list N)).
      by rewrite app_nil_r.
  - split.
    + by destruct (isabs_cons _ Hcwd) as [c' ->].
    + apply components_app.
Qed.

Lemma commonprefix_app (a b : list str) : commonprefix a (a ++ b) = a.
Proof.
  induction a as [|x a IH]; simpl; [by destruct b|].
  rewrite bool_decide_eq_true_2 by done. by rewrite IH.
Qed.

(** The pieces of [abspath cwd x]. *)
Lemma abspath_pieces (cwd x : str) :
  isabs cwd = true ->
  List.filter nonempty (split_chr chr_slash (abspath cwd x))
  = foldl (norm_step 1) []
      ((if isabs x then [] else components cwd) ++ components x).
Proof.
  intros Hcwd. unfold abspath. destruct (isabs x) eqn:Hx.
  - by rewrite normpath_pieces.
  - destruct (components_join cwd x Hcwd Hx) as [Habs Hc].
    by rewrite normpath_pieces, Hc.
Qed.

(** [relpath] of what is below a directory gives back the names followed. *)
Lemma relpath_below (cwd dir file : str) (rel : list str) :
  isabs cwd = true -> below dir file rel ->
  relpath cwd file dir = Ok (PyStr.join sep rel).
Proof.
  intros Hcwd (Habs & Hcomp & Hrel & Hne). unfold relpath.
  assert (file <> []) as Hfile.
  { intros ->. destruct (components dir), rel; done. }
  rewrite bool_decide_eq_false_2 by done.
  rewrite !abspath_pieces by done. rewrite Habs, Hcomp.
  rewrite (app_assoc _ (components dir) rel), (foldl_app _ _ rel).
  rewrite (norm_fold_names _ _ rel Hrel).
  set (start_list := foldl _ _ _).
  rewrite commonprefix_app, Nat.sub_diag, drop_app_length. simpl.
  destruct rel as [|a p]; [done|].
  rewrite join_names; [done|]. eapply Forall_impl; [exact Hrel|]. apply name_ok_kept.
Qed.

End OsPathFacts.

(** ** Facts on [pathlib] *)

Section PathlibFacts.

Import Pathlib.








End PathlibFacts.

(** ** [_construct_dest_file_path] *)

Section DestFilePath.

Lemma drop_while_split (f : char -> bool) (s : str) :
  exists pre, s = pre ++ drop_while f s
              /\ Forall (fun x => f x = true) pre
              /\ match drop_while f s with x :: _ => f x = false | [] => True end.
Proof.
  induction s as [|x s (pre & Hs & Hpre & Hhd)]; simpl.
  - by exists [].
  - destruct (f x) eqn:E.
    + exists (x :: pre). split; [by rewrite Hs at 1|]. split; [by constructor|done].
    + exists []. by rewrite E.
Qed.

Lemma in_slash (c : char) : existsb (N.eqb c) (py "/") = N.eqb c chr_slash.
Proof. change (py "/") with [chr_slash]. simpl. apply orb_false_r. Qed.

Lemma replicate_snoc {A} (n : nat) (x : A) :
  replicate n x ++ [x] = replicate (S n) x.
Proof. induction n as [|n IH]; simpl; [done|]. by rewrite IH. Qed.

(** [rstrip] drops the slashes at the end of a text, and only them. *)
Lemma rstrip_slashes (s : str) :
  (exists k, s = rstrip (py "/") s ++ replicate k chr_slash)
  /\ endswith (py "/") (rstrip (py "/") s) = false.
Proof.
  unfold rstrip, lstrip.
  destruct (drop_while_split (fun c => existsb (N.eqb c) (py "/")) (rev s))
    as (pre & Hs & Hpre & Hhd).
  split.
  - exists (length pre). apply (f_equal (@rev _)) in Hs.
    rewrite rev_involutive, rev_app_distr in Hs. rewrite Hs at 1. f_equal.
    clear Hs. induction Hpre as [|x pre Hx _ IH]; [done|].
    rewrite in_slash in Hx. apply N.eqb_eq in Hx. subst x.
    change (rev (chr_slash :: pre)) with (rev pre ++ [chr_slash]). rewrite IH.
    apply replicate_snoc.
  - unfold endswith. rewrite rev_involutive.
    destruct (drop_while _ (rev s)) as [|z t]; [done|].
    rewrite in_slash in Hhd. change (rev (py "/")) with OsPath.sep.
    rewrite startswith_sep_cons, N.eqb_sym. exact Hhd.
Qed.

Lemma lstrip_names (rel : list str) :
  Forall name_ok rel ->
  lstrip (py "/") (PyStr.join (py "/") rel) = PyStr.join (py "/") rel.
Proof.
  intros Hrel. destruct rel as [|a p]; [done|].
  inversion Hrel as [|? ? (Ha & _ & _ & Hfree) _]; subst.
  change (py "/") with [chr_slash] at 2 3.
  rewrite join_cons. destruct a as [|y a]; [done|].
  unfold lstrip. change ((y :: a) ++ ?t) with (y :: a ++ t).
  cbn [drop_while]. rewrite in_slash.
  destruct (N.eqb_spec y chr_slash) as [->|]; [|done].
  exfalso. apply Hfree. by left.
Qed.

(** The name the builder gives to what is below the source directory. *)
Lemma construct_dest_file_path_below
    (cwd root file dir subpath : str) (rel : list str) (context : Context) (n : Z) :
  OsPath.isabs cwd = true ->
  below dir file rel ->
  try_number (task_instance context) = Some n ->
  _construct_dest_file_path cwd root file dir subpath (Some context)
  = Ok (PyStr.join (py "/")
          [rstrip (py "/") root; dag_id context; run_id context;
           task_id (task_instance context); str_of_int n; subpath;
           PyStr.join (py "/") rel]).
Proof.
  intros Hcwd Hbelow Htry.
  unfold _construct_dest_file_path, kwargs_context.
  cbn [mbind result_bind]. rewrite Htry. cbn [getattr mbind result_bind].
  rewrite (relpath_below cwd dir file rel Hcwd Hbelow). cbn [mbind result_bind].
  destruct Hbelow as (_ & _ & Hrel & _).
  change OsPath.sep with (py "/"). rewrite (lstrip_names rel Hrel).
  cbn [PyStr.join]. by rewrite <- !app_assoc.
Qed.

(** C1. For every root, run, source subpath and file found below the source
    directory by the names [rel], the builder returns the root without the
    slashes at its end, the ids of the DAG, of the run and of the task, the
    number of the attempt, the source subpath and the names [rel], joined by
    slashes in this order. *)
Theorem construct_dest_file_path_joined
    (cwd root file dir subpath : str) (rel : list str) (context : Context) (n : Z) :
  OsPath.isabs cwd = true ->
  below dir file rel ->
  try_number (task_instance context) = Some n ->
  _construct_dest_file_path cwd root file dir subpath (Some context)
  = Ok (PyStr.join (py "/")
          [rstrip (py "/") root; dag_id context; run_id context;
           task_id (task_instance context); str_of_int n; subpath;
           PyStr.join (py "/") rel])
  /\ (exists k, root = rstrip (py "/") root ++ replicate k chr_slash)
  /\ endswith (py "/") (rstrip (py "/") root) = false.
Proof.
  intros Hcwd Hbelow Htry.
  split; [by apply construct_dest_file_path_below | apply rstrip_slashes].
Qed.

(** The example of the specification. *)
Lemma construct_dest_file_path_example :
  _construct_dest_file_path (py "/home/u") (py "store://bucket")
    (py "p/target/run/results.json") (py "p/target") (py "target") (Some ctx_example)
  = Ok (py "store://bucket/d1/r1/t1/2/target/run/results.json").
Proof.
  refine (proj1 (construct_dest_file_path_joined (py "/home/u") (py "store://bucket")
            (py "p/target/run/results.json") (py "p/target") (py "target")
            [py "run"; py "results.json"] ctx_example 2 _ _ _)).
  - reflexivity.
  - apply (@bool_decide_unpack _ (below_dec _ _ _)). vm_compute. exact I.
  - reflexivity.
Defined.

End DestFilePath.

(** ** [_configure_remote_target_path] *)

Section RemoteTarget.

Lemma resolves_not (h : Host) :
  ~ resolves h ->
  truthy (remote_target_path (settings h)) = false \/ resolved_conn_id h = None.
Proof.
  unfold resolves, root_configured. intros Hn.
  destruct (truthy (remote_target_path (settings h))); [|by left].
  right. destruct (resolved_conn_id h) eqn:E; [|done].
  destruct Hn. split; [done|]. by eexists.
Qed.

(** The three ways the resolver ends. *)
Lemma configure_cases (h : Host) (r : Remote) :
  (~ resolves h /\ _configure_remote_target_path h r = (Ok (None, None), r))
  \/ (resolves h /\ AIRFLOW_IO_AVAILABLE (settings h) = false
      /\ _configure_remote_target_path h r = (Raise (CapabilityUnavailable h), r))
  \/ (resolves h /\ AIRFLOW_IO_AVAILABLE (settings h) = true
      /\ exists conn_id r',
          resolved_conn_id h = Some conn_id
          /\ (_configure_remote_target_path h r
               = (Ok (Some {| osp_path := default [] (remote_target_path (settings h));
                              osp_conn_id := Some conn_id |}, Some conn_id), r')
               \/ _configure_remote_target_path h r
                  = (Raise (TransportError (default [] (remote_target_path (settings h)))), r'))
          /\ objects r' = objects r).
Proof.
  unfold _configure_remote_target_path, resolves, root_configured, resolved_conn_id,
    CapabilityUnavailable.
  destruct (truthy (remote_target_path (settings h))) eqn:Hroot; simpl.
  2:{ left. split; [|done]. by intros []. }
  set (conn := if negb _ then _ else _).
  assert (conn = if truthy (remote_target_path_conn_id (settings h))
                 then remote_target_path_conn_id (settings h)
                 else FILE_SCHEME_AIRFLOW_DEFAULT_CONN_ID_MAP h
                        !! UrlParse.scheme (default [] (remote_target_path (settings h))))
    as Hconn.
  { unfold conn. by destruct (truthy (remote_target_path_conn_id (settings h))). }
  rewrite <- Hconn. clearbody conn. clear Hconn.
  destruct conn as [conn_id|].
  2:{ left. split; [|done]. by intros [_ [? ?]]. }
  right. destruct (AIRFLOW_IO_AVAILABLE (settings h)); simpl.
  - right. split; [by split|]. split; [done|]. exists conn_id.
    unfold mbind, io_bind, osp_exists, osp_mkdir, mret, io_ret.
    match goal with |- context [negb ?b] => destruct b end; simpl.
    + exists r. split; [done|]. split; [by left|done].
    + destruct (refused h _); simpl.
      * exists r. split; [done|]. split; [by right|done].
      * eexists. split; [done|]. split; [by left|done].
  - left. split; [by split|]. done.
Qed.

(** When the resolver gave a root, it gives the same from the store it left,
    and leaves it as it is. *)
Lemma configure_again (h : Host) (r r' : Remote) (p : ObjectStoragePath) (c : str) :
  _configure_remote_target_path h r = (Ok (Some p, Some c), r') ->
  _configure_remote_target_path h r' = (Ok (Some p, Some c), r')
  /\ objects r' = objects r
  /\ (forall x, x ∈ directories r -> x ∈ directories r').
Proof.
  unfold _configure_remote_target_path.
  destruct (negb (truthy (remote_target_path (settings h)))); [done|].
  match goal with |- context [match ?c with Some _ => _ | None => _ end] =>
    destruct c as [conn_id|]; [|done] end.
  destruct (negb (AIRFLOW_IO_AVAILABLE (settings h))); [done|].
  unfold mbind, io_bind, osp_exists, osp_mkdir, mret, io_ret.
  set (place := osp_place _).
  destruct (bool_decide (place ∈ directories r)
            || bool_decide (is_Some (objects r !! place))) eqn:Ef; simpl.
  - intros [= <- <- <-]. by rewrite Ef.
  - destruct (refused h place); simpl; [done|]. intros [= <- <- <-]. simpl.
    rewrite (bool_decide_eq_true_2 (place ∈ {[place]} ∪ directories r)) by set_solver.
    simpl. split; [done|]. split; [done|]. set_solver.
Qed.

(** A root that the resolver gave without changing the store is given
    again from any store with the same directories and at least the same
    objects. *)
Lemma configure_stable (h : Host) (r r' : Remote) (p : ObjectStoragePath) (c : str) :
  _configure_remote_target_path h r = (Ok (Some p, Some c), r) ->
  directories r' = directories r ->
  (forall name, is_Some (objects r !! name) -> is_Some (objects r' !! name)) ->
  _configure_remote_target_path h r' = (Ok (Some p, Some c), r').
Proof.
  unfold _configure_remote_target_path. intros Hrun Hd Ho.
  destruct (negb (truthy (remote_target_path (settings h)))); [done|].
  match goal with |- context [match ?c with Some _ => _ | None => _ end] =>
    destruct c as [conn_id|]; [|done] end.
  destruct (negb (AIRFLOW_IO_AVAILABLE (settings h))); [done|].
  revert Hrun. unfold mbind, io_bind, osp_exists, osp_mkdir, mret, io_ret.
  set (place := osp_place _). rewrite Hd.
  destruct (bool_decide_reflect (place ∈ directories r)) as [Hin|Hin]; simpl.
  { by intros [= <- <-]. }
  destruct (bool_decide_reflect (is_Some (objects r !! place))) as [Hob|Hob]; simpl.
  { intros [= <- <-]. by rewrite (bool_decide_eq_true_2 _ (Ho _ Hob)). }
  destruct (refused h place); simpl; [done|]. intros [= _ _ Hr].
  destruct Hin. rewrite <- Hr. simpl. apply elem_of_union. left. by apply elem_of_singleton.
Qed.


Lemma configure_nothing (h : Host) (r : Remote) :
  ~ resolves h -> _configure_remote_target_path h r = (Ok (None, None), r).
Proof.
  intros Hn. by destruct (configure_cases h r) as [[_ ?] | [[? _] | [? _]]].
Qed.




(** The resolver on a root of scheme [s3]: without Object Storage it raises;
    with it, it makes the directory of the root and returns the root with the
    connection id of the table. *)
Lemma configure_remote_target_path_examples :
  _configure_remote_target_path (host_example (settings_s3 false)) remote_empty
  = (Raise (CapabilityUnavailable (host_example (settings_s3 false))), remote_empty)
  /\ CapabilityUnavailable (host_example (settings_s3 false))
     = CosmosValueError
         (py "You're trying to specify remote target path s3://bucket, but the required Object Storage feature is unavailable in Airflow version 2.7.0. Please upgrade to Airflow 2.8 or later.")
  /\ _configure_remote_target_path (host_example (settings_s3 true)) remote_empty
     = (Ok (Some {| osp_path := py "s3://bucket"; osp_conn_id := Some (py "aws_default") |},
            Some (py "aws_default")),
        {| objects := ∅; directories := {[ (py "aws_default", py "s3://bucket") ]} |}).
Proof. repeat split; vm_compute; reflexivity. Qed.

(** C10. The resolver returns a root and a connection id together, or
    neither. *)
Theorem configure_remote_target_path_both_or_none (h : Host) (r : Remote) :
  match (_configure_remote_target_path h r).1 with
  | Ok (root, conn_id) =>
      (is_Some root /\ is_Some conn_id) \/ (root = None /\ conn_id = None)
  | Raise _ => True
  end.
Proof.
  destruct (configure_cases h r)
    as [[Hn E] | [(Hres & Hio & E) | (Hres & Hio & c & r' & _ & [E | E] & _)]];
    rewrite E; simpl; auto.
Qed.

End RemoteTarget.

(** ** Loops of uploads *)

Section Uploads.

Lemma put_all_lookup (pairs : list ((str * str) * str)) (m : gmap (str * str) str)
    (name : str * str) :
  put_all m pairs !! name
  = match written_last pairs name with Some v => Some v | None => m !! name end.
Proof.
  revert m. induction pairs as [|p pairs IH]; intros m; [done|].
  unfold put_all in *. simpl. rewrite IH.
  destruct (written_last pairs name); [done|].
  case_bool_decide as Hp.
  - subst. by rewrite lookup_insert_eq.
  - by rewrite lookup_insert_ne.
Qed.

Lemma put_all_twice (pairs : list ((str * str) * str)) (m : gmap (str * str) str) :
  put_all (put_all m pairs) pairs = put_all m pairs.
Proof.
  apply map_eq. intros name. rewrite !put_all_lookup.
  by destruct (written_last pairs name).
Qed.

Lemma written_last_Some (pairs : list ((str * str) * str)) (name : str * str) (v : str) :
  written_last pairs name = Some v -> (name, v) ∈ pairs.
Proof.
  induction pairs as [|[k w] pairs IH]; [done|]. simpl.
  destruct (written_last pairs name) as [v'|].
  - intros [= ->]. right. by apply IH.
  - case_bool_decide; [|done]. intros [= ->]. subst. by left.
Qed.

Lemma written_last_None (pairs : list ((str * str) * str)) (name : str * str) :
  written_last pairs name = None <-> name ∉ pairs.*1.
Proof.
  induction pairs as [|[k w] pairs IH]; simpl.
  - split; [intros _; apply not_elem_of_nil | done].
  - rewrite not_elem_of_cons. destruct (written_last pairs name) as [v'|].
    + split; [done|]. intros [_ Hn]. by apply IH in Hn.
    + case_bool_decide; simpl in *.
      * split; [done|]. by intros [? _].
      * split; [|done]. intros _. split; [done|]. by apply IH.
Qed.

Context (h : Host) {A : Type}.
Context (name_of : A -> result (str * str)) (content_of : A -> str).

#[local] Abbreviation upload_round := (upload_round h name_of content_of).
#[local] Abbreviation uploaded := (uploaded h name_of content_of).

Lemma for_each_uploads_inv (l : list A) (r r' : Remote) :
  for_each l upload_round r = (Ok tt, r') ->
  exists pairs, Forall2 uploaded l pairs
    /\ r' = {| objects := put_all (objects r) pairs; directories := directories r |}.
Proof.
  revert r. induction l as [|x l IH]; intros r; simpl.
  - intros [= <-]. exists []. split; [constructor|]. by destruct r.
  - unfold mbind, io_bind at 1. unfold upload_round at 1.
    unfold mbind, io_bind at 1. unfold lift, upload_file.
    destruct (name_of x) as [n|e] eqn:En; [|done].
    destruct (refused h n) eqn:Er; [done|]. simpl.
    intros (pairs & Hp & ->)%IH. exists ((n, content_of x) :: pairs).
    split; [|done]. constructor; [|done]. by split.
Qed.

Lemma for_each_uploads_run (l : list A) (pairs : list ((str * str) * str)) (r : Remote) :
  Forall2 uploaded l pairs ->
  for_each l upload_round r
  = (Ok tt, {| objects := put_all (objects r) pairs; directories := directories r |}).
Proof.
  intros Hp. revert r. induction Hp as [|x p l pairs (Hn & Hc & Hr) _ IH]; intros r; simpl.
  - by destruct r.
  - unfold mbind, io_bind at 1. unfold upload_round at 1.
    unfold mbind, io_bind at 1. unfold lift, upload_file.
    rewrite Hn, Hr. simpl. rewrite IH. simpl. by rewrite Hc.
Qed.

(** A loop of uploads that went well goes well again from the store it
    left, and leaves it as it is. *)
Lemma for_each_uploads_again (l : list A) (r r' : Remote) :
  for_each l upload_round r = (Ok tt, r') ->
  for_each l upload_round r' = (Ok tt, r').
Proof.
  intros (pairs & Hp & ->)%for_each_uploads_inv.
  rewrite (for_each_uploads_run l pairs _ Hp). simpl. by rewrite put_all_twice.
Qed.

End Uploads.

Lemma for_each_ext {A} (l : list A) (f g : A -> io unit) (r : Remote) :
  (forall x r, f x r = g x r) -> for_each l f r = for_each l g r.
Proof.
  intros Hfg. revert r. induction l as [|x l IH]; intros r; simpl; [done|].
  unfold mbind, io_bind. rewrite Hfg. destruct (g x r) as [[[]|e] r1]; [apply IH|done].
Qed.

(** ** The files of a directory *)

Section Files.

Lemma node_ind_nested (P : node -> Prop) :
  (forall content, P (File content)) ->
  (forall entries, Forall (fun e => P e.2) entries -> P (Dir entries)) ->
  forall n, P n.
Proof.
  intros HF HD. fix IH 1. intros [content|entries]; [apply HF|].
  apply HD. induction entries as [|e entries IHe]; constructor; [apply IH|apply IHe].
Qed.



End Files.

(** ** [upload_to_cloud_storage] *)

Section CloudStorage.

Context (h : Host) (project_dir source_subpath : str) (kwargs : Kwargs).

#[local] Abbreviation dir := (Pathlib.div (Pathlib.of_str project_dir) source_subpath).

(** The name of the object a file of the loop is copied to. *)
#[local] Abbreviation name_in conn_id :=
  (fun f : str * str =>
     d ← _construct_dest_file_path (cwd h) (default [] (remote_target_path (settings h)))
           f.1 (Pathlib.to_str dir) source_subpath kwargs;
     Ok (conn_id, d)).


(** After the resolver has given a root, the publisher is a loop of
    uploads. *)
Lemma upload_to_cloud_storage_resolved (conn_id : str) (r r1 : Remote) :
  _configure_remote_target_path h r
  = (Ok (Some {| osp_path := default [] (remote_target_path (settings h));
                 osp_conn_id := Some conn_id |}, Some conn_id), r1) ->
  upload_to_cloud_storage h project_dir source_subpath kwargs r
  = for_each (files_of h dir) (upload_round h (name_in conn_id) snd) r1.
Proof.
  intros E. unfold upload_to_cloud_storage. unfold mbind at 1, io_bind at 1.
  rewrite E. simpl. apply for_each_ext. intros [file_path content] r2.
  unfold upload_round, mbind, io_bind, result_bind, lift. simpl.
  by destruct (_construct_dest_file_path _ _ _ _ _ _).
Qed.

(** The publisher is the resolver followed by a loop of uploads. *)
Lemma upload_to_cloud_storage_loop (r : Remote) :
  (~ resolves h
   /\ upload_to_cloud_storage h project_dir source_subpath kwargs r
      = (Raise NotConfigured, r))
  \/ (exists e r', upload_to_cloud_storage h project_dir source_subpath kwargs r
                   = (Raise e, r')
                   /\ objects r' = objects r)
  \/ (exists conn_id r1,
        resolved_conn_id h = Some conn_id
        /\ objects r1 = objects r
        /\ _configure_remote_target_path h r1
           = (Ok (Some {| osp_path := default [] (remote_target_path (settings h));
                          osp_conn_id := Some conn_id |}, Some conn_id), r1)
        /\ upload_to_cloud_storage h project_dir source_subpath kwargs r
           = for_each (files_of h dir) (upload_round h (name_in conn_id) snd) r1).
Proof.
  destruct (configure_cases h r)
    as [[Hn E] | [(Hres & Hio & E) | (Hres & Hio & c & r' & Hc & [E | E] & Ho)]].
  - left. split; [done|]. unfold upload_to_cloud_storage, mbind, io_bind. by rewrite E.
  - right. left. exists (CapabilityUnavailable h), r.
    unfold upload_to_cloud_storage, mbind, io_bind. by rewrite E.
  - right. right. exists c, r'.
    destruct (configure_again h r r' _ c E) as (E' & _ & _).
    split; [done|]. split; [done|]. split; [done|].
    by apply upload_to_cloud_storage_resolved.
  - right. left. eexists _, r'.
    unfold upload_to_cloud_storage, mbind, io_bind. by rewrite E.
Qed.

Lemma Forall2_elem_l {A B} (P : A -> B -> Prop) (l : list A) (k : list B) (x : A) :
  Forall2 P l k -> x ∈ l -> exists y, y ∈ k /\ P x y.
Proof.
  induction 1 as [|a b l k Hab _ IH]; [by intros ?%elem_of_nil|].
  intros [->|Hx]%elem_of_cons.
  - exists b. split; [by left|done].
  - destruct (IH Hx) as (y & Hy & HP). exists y. split; [by right|done].
Qed.

Lemma Forall2_elem_r {A B} (P : A -> B -> Prop) (l : list A) (k : list B) (y : B) :
  Forall2 P l k -> y ∈ k -> exists x, x ∈ l /\ P x y.
Proof.
  induction 1 as [|a b l k Hab _ IH]; [by intros ?%elem_of_nil|].
  intros [->|Hy]%elem_of_cons.
  - exists a. split; [by left|done].
  - destruct (IH Hy) as (x & Hx & HP). exists x. split; [by right|done].
Qed.




(** A run that went well goes well again from the store it left, and leaves
    it as it is. *)
Lemma upload_to_cloud_storage_again (r r' : Remote) :
  upload_to_cloud_storage h project_dir source_subpath kwargs r = (Ok tt, r') ->
  upload_to_cloud_storage h project_dir source_subpath kwargs r' = (Ok tt, r').
Proof.
  intros Hrun.
  destruct (upload_to_cloud_storage_loop r)
    as [[_ E] | [(e & r1 & E & _) | (c & r1 & Hc & Ho & E1 & E)]];
    [congruence | congruence |].
  rewrite E in Hrun. pose proof (for_each_uploads_again _ _ _ _ _ _ Hrun) as Hagain.
  apply for_each_uploads_inv in Hrun as (pairs & Hp & Hr').
  rewrite (upload_to_cloud_storage_resolved c r' r'); [done|].
  apply (configure_stable h r1); [done|by subst r'|].
  intros name Hsome. subst r'. simpl. rewrite put_all_lookup.
  by destruct (written_last pairs name); [eexists|].
Qed.

End CloudStorage.

(** ** The publishers of the named backends *)

Section NamedBackends.

Lemma for_each_app {A} (l1 l2 : list A) (f : A -> io unit) (r : Remote) :
  for_each (l1 ++ l2) f r
  = match for_each l1 f r with
    | (Ok _, r') => for_each l2 f r'
    | (Raise e, r') => (Raise e, r')
    end.
Proof.
  revert r. induction l1 as [|x l1 IH]; intros r; simpl; [done|].
  unfold mbind, io_bind. destruct (f x r) as [[[]|e] r1]; [apply IH|done].
Qed.

(** A loop in a loop is a loop over the pairs. *)
Lemma for_each_nested {A B} (l : list A) (g : A -> list B) (f : A -> B -> io unit)
    (r : Remote) :
  for_each l (fun x => for_each (g x) (f x)) r
  = for_each (flat_map (fun x => (fun y => (x, y)) <$> g x) l) (fun p => f p.1 p.2) r.
Proof.
  revert r. induction l as [|x l IH]; intros r; simpl; [done|].
  rewrite for_each_app. unfold mbind, io_bind.
  assert (forall r, for_each ((fun y => (x, y)) <$> g x) (fun p => f p.1 p.2) r
                    = for_each (g x) (f x) r) as ->.
  { clear. induction (g x) as [|y k IHk]; intros r; simpl; [done|].
    unfold mbind, io_bind. destruct (f x y r) as [[[]|e] r1]; [apply IHk|done]. }
  destruct (for_each (g x) (f x) r) as [[[]|e] r1]; [apply IH|done].
Qed.

Lemma walk_files_nested (h : Host) (top : str) (f : str -> str * str -> io unit)
    (r : Remote) :
  for_each (os_walk h top) (fun t => for_each t.2 (f t.1.1)) r
  = for_each (walk_files h top) (fun x => f x.1 x.2) r.
Proof.
  rewrite (for_each_nested _ (fun t => t.2) (fun t => f t.1.1)).
  unfold walk_files. induction (os_walk h top) as [|t l IH] in r |- *; simpl; [done|].
  rewrite !for_each_app.
  assert (forall r, for_each ((fun y => (t, y)) <$> t.2) (fun p => f p.1.1.1 p.2) r
                    = for_each ((fun y => (t.1.1, y)) <$> t.2) (fun x => f x.1 x.2) r) as ->.
  { clear. induction (t.2) as [|y k IHk]; intros r; simpl; [done|].
    unfold mbind, io_bind. destruct (f _ y r) as [[[]|e] r1]; [apply IHk|done]. }
  destruct (for_each _ _ r) as [[[]|e] r1]; [apply IH|done].
Qed.

Context (h : Host) (project_dir place : str) (conn_id : option str)
  (source_subpath : str).

Lemma upload_to_aws_s3_loop (context : Context) (n : Z) (r : Remote) :
  s3_attempt context = Ok n ->
  upload_to_aws_s3 h project_dir place conn_id source_subpath (Some context) r
  = for_each (walk_files h (project_dir ++ py "/" ++ source_subpath))
      (upload_round h (hook_name project_dir place context (Ok n)) (fun x => x.2.2)) r.
Proof.
  intros Hn. unfold upload_to_aws_s3. unfold mbind at 1, io_bind at 1.
  cbn [kwargs_context lift]. unfold mbind at 1, io_bind at 1.
  fold (s3_attempt context). rewrite Hn. cbn [lift].
  rewrite <- (walk_files_nested h _
    (fun dirpath f => upload_round h (hook_name project_dir place context (Ok n))
                        (fun x => x.2.2) (dirpath, f))).
  apply for_each_ext. intros [[dirpath dirs] filenames] r1. cbn [fst snd].
  apply for_each_ext. intros [filename content] r2.
  unfold upload_round, hook_name, S3Hook_load_file, mbind, io_bind, result_bind, lift.
  cbn [fst snd]. destruct (str_split project_dir dirpath); [|done].
  unfold run_prefix. by rewrite <- !app_assoc.
Qed.

Lemma upload_to_azure_wasb_loop (context : Context) (r : Remote) :
  upload_to_azure_wasb h project_dir place conn_id source_subpath (Some context) r
  = for_each (walk_files h (project_dir ++ py "/" ++ source_subpath))
      (upload_round h
         (hook_name project_dir place context
            (getattr (py "_try_number") (_try_number (task_instance context))))
         (fun x => x.2.2)) r.
Proof.
  unfold upload_to_azure_wasb. unfold mbind at 1, io_bind at 1.
  cbn [kwargs_context lift].
  rewrite <- (walk_files_nested h _
    (fun dirpath f =>
       upload_round h
         (hook_name project_dir place context
            (getattr (py "_try_number") (_try_number (task_instance context))))
         (fun x => x.2.2) (dirpath, f))).
  apply for_each_ext. intros [[dirpath dirs] filenames] r1. cbn [fst snd].
  apply for_each_ext. intros [filename content] r2.
  unfold upload_round, hook_name, WasbHook_load_file, mbind, io_bind, result_bind, lift.
  cbn [fst snd]. destruct (getattr _ _); [|done].
  destruct (str_split project_dir dirpath); [|done].
  unfold run_prefix. by rewrite <- !app_assoc.
Qed.

Lemma upload_to_gcp_gs_loop (kwargs : Kwargs) (r : Remote) :
  upload_to_gcp_gs h project_dir place conn_id source_subpath kwargs r
  = for_each (walk_files h (OsPath.join project_dir [source_subpath]))
      (upload_round h (gcs_name h project_dir place) (fun x => x.2.2)) r.
Proof.
  unfold upload_to_gcp_gs.
  rewrite <- (walk_files_nested h _
    (fun root f => upload_round h (gcs_name h project_dir place) (fun x => x.2.2) (root, f))).
  apply for_each_ext. intros [[root dirs] files] r1. cbn [fst snd].
  apply for_each_ext. intros [file content] r2.
  unfold upload_round, gcs_name, GCSHook_upload, mbind, io_bind, result_bind, lift.
  cbn [fst snd]. by destruct (OsPath.relpath _ _ _).
Qed.

(** The keys of [upload_to_aws_s3] and [upload_to_azure_wasb] start with the
    fields of the run. *)
Lemma hook_name_prefix (context : Context) (attempt : result Z)
    (x : str * (str * str)) (name : str * str) :
  hook_name project_dir place context attempt x = Ok name ->
  exists n rest, attempt = Ok n /\ name = (place, run_prefix context n ++ rest).
Proof.
  unfold hook_name, mbind, result_bind. destruct attempt as [n|e]; [|done].
  destruct (str_split project_dir x.1) as [pieces|e]; [|done].
  intros [= <-]. by eexists n, _.
Qed.

(** Every key [upload_to_aws_s3] writes in a run that went well starts with
    the dag, the run, the task and the attempt: one object is written for
    each file [os.walk] gives, in that order. *)
Lemma upload_to_aws_s3_keys (kwargs : Kwargs) (r r' : Remote) :
  upload_to_aws_s3 h project_dir place conn_id source_subpath kwargs r = (Ok tt, r') ->
  exists context n pairs,
    kwargs = Some context /\ s3_attempt context = Ok n
    /\ length pairs = length (walk_files h (project_dir ++ py "/" ++ source_subpath))
    /\ objects r' = put_all (objects r) pairs
    /\ Forall (fun p => exists rest, p.1 = (place, run_prefix context n ++ rest)) pairs.
Proof.
  destruct kwargs as [context|]; [|done].
  destruct (s3_attempt context) as [n|e] eqn:En.
  2:{ unfold upload_to_aws_s3. unfold mbind at 1, io_bind at 1. cbn [kwargs_context lift].
      unfold mbind at 1, io_bind at 1. fold (s3_attempt context). by rewrite En. }
  rewrite (upload_to_aws_s3_loop context n r En).
  intros (pairs & Hp & ->)%for_each_uploads_inv. exists context, n, pairs.
  split; [done|]. split; [done|]. split; [symmetry; by eapply Forall2_length|].
  split; [done|]. apply Forall_forall. intros p Hin.
  destruct (Forall2_elem_r _ _ _ _ Hp Hin) as (x & _ & Hn & _).
  apply hook_name_prefix in Hn as (n' & rest & [= <-] & ->). by exists rest.
Qed.

(** So does every name [upload_to_azure_wasb] writes, with the private
    counter of the task instance for the attempt. *)
Lemma upload_to_azure_wasb_keys (kwargs : Kwargs) (r r' : Remote) :
  upload_to_azure_wasb h project_dir place conn_id source_subpath kwargs r = (Ok tt, r') ->
  exists context pairs,
    kwargs = Some context
    /\ length pairs = length (walk_files h (project_dir ++ py "/" ++ source_subpath))
    /\ objects r' = put_all (objects r) pairs
    /\ Forall (fun p => exists n rest,
                 _try_number (task_instance context) = Some n
                 /\ p.1 = (place, run_prefix context n ++ rest)) pairs.
Proof.
  destruct kwargs as [context|]; [|done].
  rewrite (upload_to_azure_wasb_loop context r).
  intros (pairs & Hp & ->)%for_each_uploads_inv. exists context, pairs.
  split; [done|]. split; [symmetry; by eapply Forall2_length|].
  split; [done|]. apply Forall_forall. intros p Hin.
  destruct (Forall2_elem_r _ _ _ _ Hp Hin) as (x & _ & Hn & _).
  apply hook_name_prefix in Hn as (n' & rest & Hattempt & ->). exists n', rest.
  split; [|done]. by destruct (_try_number (task_instance context)) as [m|]; [injection Hattempt as ->|].
Qed.

(** Each publisher that went well goes well again from the store it left,
    and leaves it as it is. *)
Lemma publish_again (v : Publisher) (kwargs : Kwargs) (r r' : Remote) :
  publish v h project_dir place conn_id source_subpath kwargs r = (Ok tt, r') ->
  publish v h project_dir place conn_id source_subpath kwargs r' = (Ok tt, r').
Proof.
  destruct v; simpl.
  - destruct kwargs as [context|]; [|done].
    destruct (s3_attempt context) as [n|e] eqn:En.
    2:{ unfold upload_to_aws_s3. unfold mbind at 1, io_bind at 1.
        cbn [kwargs_context lift]. unfold mbind at 1, io_bind at 1.
        fold (s3_attempt context). by rewrite En. }
    rewrite !(upload_to_aws_s3_loop context n _ En). apply for_each_uploads_again.
  - rewrite !upload_to_gcp_gs_loop. apply for_each_uploads_again.
  - destruct kwargs as [context|]; [|done].
    rewrite !upload_to_azure_wasb_loop. apply for_each_uploads_again.
  - apply upload_to_cloud_storage_again.
Qed.

End NamedBackends.

(** ** Publication *)

(** C2, at the run [(d1, r1, t1, 2)] and the project [/p] with
    [target/run/results.json] and [target/compiled/q.sql]:
    [upload_to_gcp_gs] names the objects after the path of the files from the
    directory above the project; no key holds a field of the run. *)
Theorem upload_to_gcp_gs_keys_without_run :
  upload_to_gcp_gs (host_example settings_none) (py "/p") (py "bucket") None
    (py "target") (Some ctx_example) remote_empty
  = (Ok tt,
     {| objects := {[ (py "bucket", py "p/target/run/results.json") := py "{}";
                      (py "bucket", py "p/target/compiled/q.sql") := py "select 1" ]};
        directories := ∅ |}).
Proof. vm_compute. reflexivity. Qed.

(** The same run through [upload_to_aws_s3] and [upload_to_azure_wasb]. *)
Lemma upload_to_aws_s3_example :
  upload_to_aws_s3 (host_example settings_none) (py "/p") (py "bucket") None
    (py "target") (Some ctx_example) remote_empty
  = (Ok tt,
     {| objects := {[ (py "bucket", py "d1/r1/t1/2/target/run/results.json") := py "{}";
                      (py "bucket", py "d1/r1/t1/2/target/compiled/q.sql") := py "select 1" ]};
        directories := ∅ |})
  /\ upload_to_azure_wasb (host_example settings_none) (py "/p") (py "bucket") None
       (py "target") (Some ctx_example) remote_empty
     = upload_to_aws_s3 (host_example settings_none) (py "/p") (py "bucket") None
         (py "target") (Some ctx_example) remote_empty.
Proof. split; vm_compute; reflexivity. Qed.

(** C9. Publishing twice leaves what publishing once leaves: a run of any of
    the publishers that went well goes well again from the store it left,
    every upload replacing the object of the same name, and the store is the
    same afterwards. *)
Theorem publication_idempotent (v : Publisher) (h : Host) (project_dir place : str)
    (conn_id : option str) (source_subpath : str) (kwargs : Kwargs) (r r' : Remote) :
  publish v h project_dir place conn_id source_subpath kwargs r = (Ok tt, r') ->
  publish v h project_dir place conn_id source_subpath kwargs r' = (Ok tt, r').
Proof. apply publish_again. Qed.

(** The example project, published twice by the generic publisher. *)
Lemma publication_idempotent_example :
  publish CloudStorage (host_example settings_explicit) (py "/p") [] None (py "target")
    (Some ctx_example) remote_after_example
  = (Ok tt, remote_after_example).
Proof.
  apply (publication_idempotent CloudStorage (host_example settings_explicit)
           (py "/p") [] None (py "target") (Some ctx_example) remote_empty).
  vm_compute. reflexivity.
Defined.

(** What the example leaves in the store. *)
Lemma remote_after_example_objects :
  remote_after_example
  = {| objects :=
         {[ (py "my_conn", py "store://bucket/d1/r1/t1/2/target/run/results.json")
              := py "{}";
            (py "my_conn", py "store://bucket/d1/r1/t1/2/target/compiled/q.sql")
              := py "select 1" ]};
       directories := {[ (py "my_conn", py "store://bucket") ]} |}.
Proof. vm_compute. reflexivity. Qed.

(** Without the flag, an upload over an object is refused. *)
Lemma upload_file_without_overwrite (h : Host) (name : str * str) (content : str)
    (r : Remote) :
  refused h name = false -> is_Some (objects r !! name) ->
  exists e, upload_file h name content false r = (Raise e, r).
Proof.
  intros Hr Hs. unfold upload_file. rewrite Hr. simpl.
  rewrite bool_decide_eq_true_2 by done. by eexists.
Qed.




(** ** [_extract_show_list] *)

Section Extract.

Lemma match_here_star (class : char -> bool) (atoms : list Re.atom) (s : str) :
  Re.match_here (Re.Star class :: atoms) s
  = let stop := cons [] <$> Re.match_here atoms s in
    match s with
    | x :: s' =>
        if class x then
          match Re.match_here (Re.Star class :: atoms) s' with
          | Some (m :: ms) => Some ((x :: m) :: ms)
          | _ => stop
          end
        else stop
    | [] => stop
    end.
Proof. by destruct s. Qed.

(** A match takes a text from the start, piece by piece as the atoms allow. *)
Lemma match_here_sound (atoms : list Re.atom) (s : str) (m : list str) :
  Re.match_here atoms s = Some m ->
  Forall2 atom_takes atoms m /\ exists rest, s = concat m ++ rest.
Proof.
  revert s m. induction atoms as [|a atoms IH]; intros s m.
  - intros [= <-]. split; [constructor|]. by exists s.
  - destruct a as [c|class].
    + simpl. destruct s as [|x s]; [done|]. destruct (N.eqb_spec x c) as [->|]; [|done].
      destruct (Re.match_here atoms s) as [m'|] eqn:E; [|done]. intros [= <-].
      destruct (IH _ _ E) as [H [rest ->]]. split; [by constructor|]. by exists rest.
    + assert (forall s m, cons [] <$> Re.match_here atoms s = Some m ->
                Forall2 atom_takes (Re.Star class :: atoms) m
                /\ exists rest, s = concat m ++ rest) as Hstop.
      { intros s0 m0. destruct (Re.match_here atoms s0) as [m'|] eqn:E; [|done].
        intros [= <-]. destruct (IH _ _ E) as [H [rest ->]].
        split; [constructor; [constructor|done]|]. by exists rest. }
      revert m. induction s as [|x s IHs]; intros m; rewrite match_here_star; cbv zeta.
      * apply Hstop.
      * destruct (class x) eqn:Ex; [|apply Hstop].
        destruct (Re.match_here (Re.Star class :: atoms) s) as [[|t ms]|] eqn:E;
          [apply Hstop| |apply Hstop].
        intros [= <-]. destruct (IHs _ eq_refl) as [H [rest Hs]].
        inversion H as [|? ? ? ? Ht Hms]; subst. split.
        -- constructor; [|done]. simpl in *. by constructor.
        -- by exists rest.
Qed.

Lemma search_sound (atoms : list Re.atom) (s : str) (m : list str) :
  Re.search atoms s = Some m ->
  Forall2 atom_takes atoms m /\ exists pre rest, s = pre ++ concat m ++ rest.
Proof.
  induction s as [|x s IH]; simpl.
  - destruct (Re.match_here atoms []) as [m'|] eqn:E; [|done]. intros [= <-].
    destruct (match_here_sound _ _ _ E) as [H [rest Hr]]. split; [done|]. by exists [], rest.
  - destruct (Re.match_here atoms (x :: s)) as [m'|] eqn:E.
    + intros [= <-]. destruct (match_here_sound _ _ _ E) as [H [rest Hr]].
      split; [done|]. by exists [], rest.
    + intros [H (pre & rest & ->)]%IH. split; [done|]. by exists (x :: pre), rest.
Qed.


(** In a text that starts with another character than a quote, the match is
    searched further on. *)
Lemma search_skip (x : char) (s : str) :
  N.eqb x 34 = false -> Re.search show_pattern (x :: s) = Re.search show_pattern s.
Proof.
  intros Hx. change show_pattern with (Re.Chr 34%N :: tail show_pattern).
  simpl Re.search at 1. cbn [Re.match_here]. by rewrite Hx.
Qed.

Lemma search_after (pre s : str) :
  no_quote pre = true -> Re.search show_pattern (pre ++ s) = Re.search show_pattern s.
Proof.
  induction pre as [|x pre IH]; [done|]. intros Hq.
  change (no_quote (x :: pre)) with (negb (N.eqb x 34) && no_quote pre) in Hq.
  apply andb_true_iff in Hq as [Hx Hpre].
  change ((x :: pre) ++ s) with (x :: pre ++ s).
  rewrite search_skip; [by apply IH|]. by apply negb_true_iff.
Qed.




(** The list of the first match is returned. *)
Lemma extract_show_list_first_match (h : Host) :
  _extract_show_list h (show_key ++ py ": [9] " ++ show_123)
  = Ok (Json.Array [Json.Int 9]).
Proof. vm_compute. reflexivity. Qed.


End Extract.

(** ** [log_to_xcom] *)

Section LogToXcom.

Context (h : Host) (project_dir log_relative_path xcom_key : str)
  (xcom : gmap str Json.value).

#[local] Abbreviation log_path :=
  (Pathlib.div (Pathlib.of_str project_dir) log_relative_path).


End LogToXcom.


(** A missing log file: the text that tells so holds no list, and the error
    of the missing match is raised. *)
Lemma log_to_xcom_missing_example :
  fs host_log_example (py "/p/logs/dbt.log") = None
  /\ log_to_xcom host_log_example (py "/p") (py "logs/dbt.log") (py "dbt_logs") ∅
     = (Raise ExtractionError, ∅).
Proof. split; vm_compute; reflexivity. Qed.

(* ================================================================== *)
(** * Further properties *)
(* ================================================================== *)

(** ** The files [os.walk] comes across *)

Section Walk.

Lemma join_cons_step (top name : str) (rel : list str) :
  OsPath.join top (name :: rel) = OsPath.join (OsPath.join top [name]) rel.
Proof. done. Qed.

Lemma walk_node_files (n : node) (top dirpath filename content : str) :
  (dirpath, (filename, content))
    ∈ flat_map (fun t => (fun f => (t.1.1, f)) <$> t.2) (walk_node top n)
  <-> exists rel, dirpath = OsPath.join top rel
                  /\ reaches n (rel ++ [filename]) (File content).
Proof.
  revert top. induction n as [c|entries IH] using node_ind_nested; intros top.
  - simpl. split; [by intros ?%elem_of_nil|]. intros (rel & _ & Hr). inversion Hr.
  - cbn [walk_node flat_map fst snd]. rewrite elem_of_app, list_elem_of_fmap.
    rewrite Forall_forall in IH. split.
    + intros [([f c] & [= Hd Hf Hc] & Hin) | Hin].
      * subst. exists []. split; [done|]. apply reaches_entry.
        unfold filenames in Hin. apply list_elem_of_In, in_flat_map in Hin
          as ([name child] & Hin & Hf). simpl in Hf.
        destruct child as [c'|]; [|done]. destruct Hf as [[= -> ->]|[]].
        by apply list_elem_of_In.
      * apply list_elem_of_In, in_flat_map in Hin as (t & Ht & Hin).
        apply in_flat_map in Ht as ([name child] & He & Ht). simpl in Ht.
        apply list_elem_of_In in He.
        assert ((dirpath, (filename, content))
                  ∈ flat_map (fun t => (fun f => (t.1.1, f)) <$> t.2)
                      (walk_node (OsPath.join top [name]) child)) as Hc.
        { apply list_elem_of_In, in_flat_map. by exists t. }
        apply (IH _ He) in Hc as (rel & -> & Hr). exists (name :: rel).
        split; [done|]. by apply (reaches_below _ name child).
    + intros (rel & -> & Hr). destruct rel as [|name rel].
      * left. exists (filename, content). split; [done|].
        inversion Hr as [? ? ? Hin | ? ? ? ? ? ? Hr']; subst; [|inversion Hr'].
        unfold filenames. apply list_elem_of_In, in_flat_map.
        exists (filename, File content). split; [by apply list_elem_of_In|by left].
      * right. inversion Hr as [? ? ? Hin Heq | ? ? child ? ? Hin Hr']; subst.
        { by destruct rel. }
        assert ((OsPath.join (OsPath.join top [name]) rel, (filename, content))
                  ∈ flat_map (fun t => (fun f => (t.1.1, f)) <$> t.2)
                      (walk_node (OsPath.join top [name]) child)) as Hc.
        { apply (IH _ Hin). by exists rel. }
        apply list_elem_of_In, in_flat_map in Hc as (t & Ht & Hc).
        apply list_elem_of_In, in_flat_map. exists t. split; [|done].
        apply in_flat_map. exists (name, child). split; [by apply list_elem_of_In|done].
Qed.

(** [os.walk] comes across the regular files below its top, and across
    nothing else; the directory it gives with a file is the top joined with
    the names that lead to the directory. *)
Lemma walk_files_regular (h : Host) (top dirpath filename content : str) :
  (dirpath, (filename, content)) ∈ walk_files h top
  <-> exists rel, dirpath = OsPath.join top rel
                  /\ regular_file_at h top (rel ++ [filename]) content.
Proof.
  unfold walk_files, os_walk, regular_file_at.
  destruct (fs h top) as [n|].
  - rewrite walk_node_files. split.
    + intros (rel & ? & ?). exists rel. split; [done|]. by exists n.
    + intros (rel & ? & n' & [= <-] & ?). by exists rel.
  - simpl. split; [by intros ?%elem_of_nil|]. by intros (? & _ & ? & ? & _).
Qed.

End Walk.

(** ** [str.split] on the project directory *)

Section Split.

Lemma startswith_app (p s : str) : startswith p s = true -> exists b, s = p ++ b.
Proof.
  revert s. induction p as [|a p IH]; intros s; [by exists s|].
  destruct s as [|x s]; [done|]. simpl.
  intros [->%N.eqb_eq [b ->]%IH]%andb_true_iff. by exists b.
Qed.

Lemma startswith_prefix (p b : str) : startswith p (p ++ b) = true.
Proof. induction p as [|a p IH]; [done|]. simpl. by rewrite N.eqb_refl, IH. Qed.

Lemma split_from_skip (sep u t cur : str) :
  split_from sep (length u) cur (u ++ t) = split_from sep 0 cur t.
Proof.
  induction u as [|c u IH]; [done|]. simpl. apply IH.
Qed.

Lemma split_from_none (sep t cur : str) :
  ~ occurs sep t -> split_from sep 0 cur t = [rev cur ++ t].
Proof.
  revert cur. induction t as [|c t IH]; intros cur Hno.
  - simpl. by rewrite app_nil_r.
  - cbn [split_from]. destruct (startswith sep (c :: t)) eqn:E.
    + apply startswith_app in E as [b Hb]. destruct Hno. by exists [], b.
    + rewrite IH.
      * simpl. by rewrite <- app_assoc.
      * intros (a & b & ->). apply Hno. by exists (c :: a), b.
Qed.

(** A text that starts with the separator and does not hold it further on is
    split in two: the empty text and what follows the separator. *)
Lemma str_split_once (sep t : str) :
  ~ occurs sep t -> str_split sep (sep ++ t) = Ok [[]; t].
Proof.
  intros Hno. destruct sep as [|c sep].
  { destruct Hno. by exists [], t. }
  unfold str_split. f_equal. change ((c :: sep) ++ t) with (c :: sep ++ t).
  cbn [split_from]. change (c :: sep ++ t) with ((c :: sep) ++ t).
  rewrite startswith_prefix. f_equal.
  replace (length (c :: sep) - 1) with (length sep) by (simpl; lia).
  rewrite split_from_skip. by apply split_from_none.
Qed.

End Split.

(** ** What the publishers of the named backends leave in the store *)

Section WalkUploads.

Context (h : Host) {A : Type}.
Context (name_of : A -> result (str * str)) (content_of : A -> str).

Lemma uploaded_lookup (l : list A) (pairs : list ((str * str) * str))
    (m : gmap (str * str) str) (x : A) (name : str * str) :
  Forall2 (uploaded h name_of content_of) l pairs ->
  x ∈ l -> name_of x = Ok name -> is_Some (put_all m pairs !! name).
Proof.
  intros Hp Hx Hn. destruct (Forall2_elem_l _ _ _ _ Hp Hx) as ([name' c] & Hin & Hn' & _).
  simpl in Hn'. assert (name' = name) as -> by congruence.
  rewrite put_all_lookup. destruct (written_last pairs name) as [v|] eqn:E; [by eexists|].
  apply written_last_None in E. destruct E. apply list_elem_of_fmap. by exists (name, c).
Qed.

Lemma uploaded_other (l : list A) (pairs : list ((str * str) * str))
    (m : gmap (str * str) str) (name : str * str) :
  Forall2 (uploaded h name_of content_of) l pairs ->
  (forall x, x ∈ l -> name_of x <> Ok name) -> put_all m pairs !! name = m !! name.
Proof.
  intros Hp Hno. rewrite put_all_lookup.
  destruct (written_last pairs name) as [v|] eqn:E; [|done].
  apply written_last_Some in E.
  destruct (Forall2_elem_r _ _ _ _ Hp E) as (x & Hx & Hn & _). by destruct (Hno x Hx).
Qed.

End WalkUploads.

Section NamedBackendObjects.

Context (h : Host) (project_dir place : str) (conn_id : option str)
  (source_subpath : str).

#[local] Abbreviation top := (project_dir ++ py "/" ++ source_subpath).

(** The key of [upload_to_aws_s3] and [upload_to_azure_wasb] for a file in a
    directory whose path is the project directory followed by [tail], when
    the project directory does not stand again in [tail]. *)
Lemma hook_name_layout (context : Context) (n : Z) (tail filename content : str) :
  ~ occurs project_dir tail ->
  hook_name project_dir place context (Ok n) (project_dir ++ tail, (filename, content))
  = Ok (place, run_prefix context n ++ tail ++ py "/" ++ filename).
Proof.
  intros Hno. unfold hook_name. cbn [mbind result_bind fst snd].
  by rewrite (str_split_once _ _ Hno).
Qed.

(** After a run of [upload_to_aws_s3] that went well, every regular file
    below [project_dir/source_subpath] has its object, and the objects of
    other names are as they were; the directories of the store are
    untouched. *)
Theorem upload_to_aws_s3_objects (kwargs : Kwargs) (r r' : Remote) :
  upload_to_aws_s3 h project_dir place conn_id source_subpath kwargs r = (Ok tt, r') ->
  exists context n,
    kwargs = Some context /\ s3_attempt context = Ok n
    /\ (forall rel filename content,
          regular_file_at h top (rel ++ [filename]) content ->
          exists name,
            hook_name project_dir place context (Ok n)
              (OsPath.join top rel, (filename, content)) = Ok name
            /\ is_Some (objects r' !! name))
    /\ (forall name,
          (forall rel filename content,
             regular_file_at h top (rel ++ [filename]) content ->
             hook_name project_dir place context (Ok n)
               (OsPath.join top rel, (filename, content)) <> Ok name) ->
          objects r' !! name = objects r !! name)
    /\ directories r' = directories r.
Proof.
  destruct kwargs as [context|]; [|done].
  destruct (s3_attempt context) as [n|e] eqn:En.
  2:{ unfold upload_to_aws_s3. unfold mbind at 1, io_bind at 1. cbn [kwargs_context lift].
      unfold mbind at 1, io_bind at 1. fold (s3_attempt context). by rewrite En. }
  rewrite (upload_to_aws_s3_loop h project_dir place conn_id source_subpath context n r En).
  intros (pairs & Hp & ->)%for_each_uploads_inv. exists context, n.
  split; [done|]. split; [done|]. split; [|split; [|done]].
  - intros rel filename content Hreg.
    assert ((OsPath.join top rel, (filename, content)) ∈ walk_files h top) as Hin.
    { apply walk_files_regular. by exists rel. }
    destruct (Forall2_elem_l _ _ _ _ Hp Hin) as ([name c] & _ & Hn & _). simpl in Hn.
    exists name. split; [done|]. by eapply uploaded_lookup.
  - intros name Hno. simpl. eapply uploaded_other; [exact Hp|].
    intros [dirpath [filename content]] Hin.
    apply walk_files_regular in Hin as (rel & -> & Hreg). by apply Hno.
Qed.

(** The layout of the keys of [upload_to_aws_s3]: the fields of the run, then
    the path of the file from the project directory.  It holds for a file
    whose directory does not hold the text of the project directory a second
    time. *)
Theorem upload_to_aws_s3_layout (kwargs : Kwargs) (r r' : Remote) :
  upload_to_aws_s3 h project_dir place conn_id source_subpath kwargs r = (Ok tt, r') ->
  exists context n,
    kwargs = Some context /\ s3_attempt context = Ok n
    /\ forall rel filename content tail,
         regular_file_at h top (rel ++ [filename]) content ->
         OsPath.join top rel = project_dir ++ tail ->
         ~ occurs project_dir tail ->
         is_Some (objects r'
                    !! (place, run_prefix context n ++ tail ++ py "/" ++ filename)).
Proof.
  destruct kwargs as [context|]; [|done].
  destruct (s3_attempt context) as [n|e] eqn:En.
  2:{ unfold upload_to_aws_s3. unfold mbind at 1, io_bind at 1. cbn [kwargs_context lift].
      unfold mbind at 1, io_bind at 1. fold (s3_attempt context). by rewrite En. }
  rewrite (upload_to_aws_s3_loop h project_dir place conn_id source_subpath context n r En).
  intros (pairs & Hp & ->)%for_each_uploads_inv. exists context, n.
  split; [done|]. split; [done|].
  intros rel filename content tail Hreg Hdir Hno.
  assert ((OsPath.join top rel, (filename, content)) ∈ walk_files h top) as Hin.
  { apply walk_files_regular. by exists rel. }
  cbn [objects]. eapply uploaded_lookup; [exact Hp|exact Hin|].
  rewrite Hdir. by apply hook_name_layout.
Qed.

(** The same for [upload_to_azure_wasb], whose attempt is the private
    counter of the task instance. *)
Theorem upload_to_azure_wasb_layout (kwargs : Kwargs) (r r' : Remote) :
  upload_to_azure_wasb h project_dir place conn_id source_subpath kwargs r = (Ok tt, r') ->
  exists context,
    kwargs = Some context
    /\ forall rel filename content tail,
         regular_file_at h top (rel ++ [filename]) content ->
         OsPath.join top rel = project_dir ++ tail ->
         ~ occurs project_dir tail ->
         exists n,
           _try_number (task_instance context) = Some n
           /\ is_Some (objects r'
                         !! (place, run_prefix context n ++ tail ++ py "/" ++ filename)).
Proof.
  destruct kwargs as [context|]; [|done].
  rewrite (upload_to_azure_wasb_loop h project_dir place conn_id source_subpath context r).
  intros (pairs & Hp & ->)%for_each_uploads_inv. exists context. split; [done|].
  intros rel filename content tail Hreg Hdir Hno.
  assert ((OsPath.join top rel, (filename, content)) ∈ walk_files h top) as Hin.
  { apply walk_files_regular. by exists rel. }
  destruct (Forall2_elem_l _ _ _ _ Hp Hin) as ([name c] & _ & Hn & _). simpl in Hn.
  destruct (_try_number (task_instance context)) as [n|] eqn:Et; [|done].
  exists n. split; [done|]. cbn [objects]. eapply uploaded_lookup; [exact Hp|exact Hin|].
  cbn [getattr]. rewrite Hdir. by apply hook_name_layout.
Qed.

End NamedBackendObjects.

(** ** The keys of [upload_to_gcp_gs] *)

Section GcsKeys.

Import OsPath.

Lemma components_join_relative (p b : str) :
  isabs b = false ->
  components (join p [b]) = components p ++ components b
  /\ isabs (join p [b]) = isabs p.
Proof.
  intros Hb. assert (join p [b] = join_step p b) as -> by done.
  unfold join_step. fold (isabs b). rewrite Hb.
  destruct p as [|x p].
  { by rewrite bool_decide_eq_true_2. }
  rewrite bool_decide_eq_false_2 by done. rewrite orb_false_l.
  destruct (endswith sep (x :: p)) eqn:E.
  - destruct (endswith_sep_true _ E) as [s' Hs]. split; [|done]. rewrite Hs.
    rewrite <- app_assoc. change ([chr_slash] ++ b) with (chr_slash :: b).
    rewrite !components_app. change (components []) with (@nil (list N)).
    by rewrite app_nil_r.
  - split; [|done]. apply components_app.
Qed.

Lemma components_name (x : str) : name_ok x -> components x = [x] /\ isabs x = false.
Proof.
  intros (H1 & H2 & H3 & H4). split.
  - unfold components. rewrite split_chr_free by done. simpl.
    unfold Pathlib.is_part. by rewrite !bool_decide_eq_false_2 by done.
  - by apply startswith_kept.
Qed.

Lemma components_join_names (p : str) (rel : list str) :
  Forall name_ok rel ->
  components (join p rel) = components p ++ rel /\ isabs (join p rel) = isabs p.
Proof.
  intros Hrel. revert p. induction Hrel as [|x rel Hx _ IH]; intros p.
  - simpl. by rewrite app_nil_r.
  - rewrite join_cons_step. destruct (components_name x Hx) as [Hc Ha].
    destruct (components_join_relative p x Ha) as [Hc' Ha'].
    destruct (IH (join p [x])) as [-> ->]. rewrite Hc', Hc, Ha'.
    by rewrite <- app_assoc.
Qed.

Lemma norm_step_pardir (acc : list str) (d : str) :
  name_ok d -> norm_step 1 (acc ++ [d]) pardir = acc.
Proof.
  intros (_ & _ & Hd & _). unfold norm_step.
  rewrite (bool_decide_eq_false_2 (pardir = [])) by done.
  rewrite (bool_decide_eq_false_2 (pardir = curdir)) by done.
  rewrite (bool_decide_eq_true_2 (pardir = pardir)) by done.
  rewrite (bool_decide_eq_false_2 (1 = 0)) by done.
  rewrite last_last, (bool_decide_eq_false_2 (d = pardir)) by done.
  rewrite andb_false_r. simpl. apply removelast_last.
Qed.

(** The key [upload_to_gcp_gs] gives to a file: the last name of the project
    directory, the source subpath and the names that lead to the file, joined
    by slashes.  No field of the run is part of it. *)
Lemma gcs_name_layout (h : Host) (project_dir bucket_name source_subpath : str)
    (above : list str) (project : str) (rel : list str) (file content : str) :
  isabs (cwd h) = true ->
  components project_dir = above ++ [project] ->
  Forall name_ok (above ++ [project]) ->
  isabs source_subpath = false ->
  Forall name_ok (components source_subpath) ->
  Forall name_ok (rel ++ [file]) ->
  gcs_name h project_dir bucket_name
    (join (join project_dir [source_subpath]) rel, (file, content))
  = Ok (bucket_name,
        PyStr.join (py "/") (project :: components source_subpath ++ rel ++ [file])).
Proof.
  intros Hcwd Hdir Habove Hsub Hsubnames Hrel.
  unfold gcs_name. cbn [fst snd].
  set (top := join project_dir [source_subpath]).
  assert (join (join top rel) [file] = join top (rel ++ [file])) as ->.
  { unfold join. by rewrite foldl_app. }
  destruct (components_join_relative project_dir source_subpath Hsub) as [Hc1 Ha1].
  destruct (components_join_names top (rel ++ [file]) Hrel) as [Hc2 Ha2].
  fold top in Hc1, Ha1.
  assert (isabs pardir = false) as Hp by done.
  destruct (components_join_relative project_dir pardir Hp) as [Hc3 Ha3].
  change (components pardir) with [pardir] in Hc3.
  unfold relpath.
  assert (join top (rel ++ [file]) <> []) as Hne.
  { intros E. rewrite E in Hc2. by destruct (components top), rel. }
  rewrite bool_decide_eq_false_2 by done.
  rewrite !abspath_pieces by done.
  rewrite Ha3, Hc3, Ha2, Ha1, Hc2, Hc1, Hdir.
  set (pre := if isabs project_dir then [] else components (cwd h)).
  assert (foldl (norm_step 1) [] (pre ++ above ++ [project])
          = foldl (norm_step 1) [] pre ++ above ++ [project]) as Hfold.
  { by rewrite foldl_app, norm_fold_names. }
  set (start_list := foldl (norm_step 1) [] pre ++ above).
  assert (foldl (norm_step 1) [] (pre ++ (above ++ [project]) ++ [pardir]) = start_list)
    as ->.
  { rewrite (app_assoc pre), foldl_app, Hfold.
    change (foldl ?f ?a [?x]) with (f a x). rewrite (app_assoc _ above).
    apply norm_step_pardir. apply Forall_app in Habove as [_ Hl]. by inversion Hl. }
  assert (foldl (norm_step 1) []
            (pre ++ ((above ++ [project]) ++ components source_subpath) ++ rel ++ [file])
          = start_list ++ project :: components source_subpath ++ rel ++ [file]) as ->.
  { rewrite <- (app_assoc (above ++ [project])), (app_assoc pre), foldl_app, Hfold.
    rewrite norm_fold_names by (apply Forall_app; split; done).
    unfold start_list. by rewrite <- !app_assoc. }
  rewrite commonprefix_app, Nat.sub_diag, drop_app_length.
  cbn [replicate app mbind result_bind]. do 2 f_equal. apply join_names. constructor.
  - apply name_ok_kept. apply Forall_app in Habove as [_ Hl]. by inversion Hl.
  - eapply Forall_impl; [|apply name_ok_kept]. by apply Forall_app.
Qed.

End GcsKeys.

Section GcsObjects.

Context (h : Host) (project_dir bucket_name : str) (conn_id : option str)
  (source_subpath : str).

(** After a run of [upload_to_gcp_gs] that went well, the object of every
    regular file below the source directory is named by the last name of the
    project directory, the source subpath and the names of the file: runs and
    attempts share the names.  The context plays no part. *)
Theorem upload_to_gcp_gs_layout (kwargs : Kwargs) (r r' : Remote)
    (above : list str) (project : str) :
  OsPath.isabs (cwd h) = true ->
  components project_dir = above ++ [project] ->
  Forall name_ok (above ++ [project]) ->
  OsPath.isabs source_subpath = false ->
  Forall name_ok (components source_subpath) ->
  upload_to_gcp_gs h project_dir bucket_name conn_id source_subpath kwargs r = (Ok tt, r') ->
  forall rel file content,
    regular_file_at h (OsPath.join project_dir [source_subpath]) (rel ++ [file]) content ->
    Forall name_ok (rel ++ [file]) ->
    is_Some (objects r'
               !! (bucket_name,
                   PyStr.join (py "/")
                     (project :: components source_subpath ++ rel ++ [file]))).
Proof.
  intros Hcwd Hdir Habove Hsub Hsubnames.
  rewrite upload_to_gcp_gs_loop.
  intros (pairs & Hp & ->)%for_each_uploads_inv rel file content Hreg Hrel.
  assert ((OsPath.join (OsPath.join project_dir [source_subpath]) rel, (file, content))
            ∈ walk_files h (OsPath.join project_dir [source_subpath])) as Hin.
  { apply walk_files_regular. by exists rel. }
  cbn [objects]. eapply uploaded_lookup; [exact Hp|exact Hin|].
  by eapply gcs_name_layout.
Qed.

End GcsObjects.

(** ** The names of [_construct_dest_file_path] do not collide *)

Section DestDistinct.

Lemma py_cons (a : ascii) (s : string) : py (String a s) = N_of_ascii a :: py s.
Proof. done. Qed.

Lemma py_inj (s1 s2 : string) : py s1 = py s2 -> s1 = s2.
Proof.
  revert s2. induction s1 as [|a s1 IH]; intros [|b s2]; try done.
  rewrite !py_cons. intros [= Hab Hs]. f_equal; [|by apply IH].
  by rewrite <- (ascii_N_embedding a), <- (ascii_N_embedding b), Hab.
Qed.

Lemma py_no_slash (s : string) :
  Forall (fun a => a <> "/"%char) (list_ascii_of_string s) -> chr_slash ∉ py s.
Proof.
  induction s as [|a s IH]; [intros _; apply not_elem_of_nil|].
  rewrite py_cons. simpl. intros H. inversion H as [|? ? Ha Hs]; subst.
  apply not_elem_of_cons. split; [|by apply IH].
  intros E. apply Ha. rewrite <- (ascii_N_embedding a), <- E. done.
Qed.

Lemma str_of_int_no_slash (n : Z) : chr_slash ∉ str_of_int n.
Proof.
  apply py_no_slash.
  assert (forall d, Forall (fun a => a <> "/"%char)
                      (list_ascii_of_string (NilEmpty.string_of_uint d))) as Hu.
  { induction d; simpl; constructor; done. }
  assert (forall d, Forall (fun a => a <> "/"%char)
                      (list_ascii_of_string (NilZero.string_of_uint d))) as Hz.
  { intros d. destruct d; try apply Hu. simpl. by repeat constructor. }
  destruct (Z.to_int n); simpl; [apply Hz|]. constructor; [done|apply Hz].
Qed.

Lemma str_of_int_inj (n m : Z) : str_of_int n = str_of_int m -> n = m.
Proof.
  intros E%py_inj.
  assert (forall z, Z.to_int z <> Decimal.Pos Decimal.Nil
                    /\ Z.to_int z <> Decimal.Neg Decimal.Nil) as Hnn.
  { intros [|q|q]; simpl; split; try done;
      intros [= Hq]; by apply Unsigned.to_uint_nonnil in Hq. }
  apply (f_equal NilZero.int_of_string) in E.
  rewrite !NilZero.isi in E by apply Hnn. injection E as E.
  by rewrite <- (DecimalZ.of_to n), <- (DecimalZ.of_to m), E.
Qed.

Lemma app_slash_inj (a b x y : str) :
  chr_slash ∉ a -> chr_slash ∉ b ->
  a ++ chr_slash :: x = b ++ chr_slash :: y -> a = b.
Proof.
  revert b. induction a as [|c a IH]; intros [|d b] Ha Hb; simpl; try done.
  - intros [= <- _]. destruct Hb. by left.
  - intros [= -> _]. destruct Ha. by left.
  - intros [= -> E]. f_equal. apply (IH b); [| |done].
    + intros ?. apply Ha. by right.
    + intros ?. apply Hb. by right.
Qed.

Lemma Ok_inj {A} (a b : A) : Ok a = Ok b -> a = b.
Proof. by intros [= ->]. Qed.

Lemma join_snoc_inj (sep : str) (l : list str) (x y : str) :
  PyStr.join sep (l ++ [x]) = PyStr.join sep (l ++ [y]) -> x = y.
Proof.
  induction l as [|a l IH]; [done|].
  assert (forall z, PyStr.join sep ((a :: l) ++ [z]) = a ++ sep ++ PyStr.join sep (l ++ [z]))
    as Hj by (intros z; by destruct l).
  rewrite !Hj. intros E. do 2 apply app_inv_head in E. by apply IH.
Qed.

Context (cwd root dir subpath : str).

(** Two files below the source directory to which different names lead
    have different names in the store. *)
Theorem construct_dest_file_path_files_distinct
    (file1 file2 : str) (rel1 rel2 : list str) (context : Context) (n : Z) :
  OsPath.isabs cwd = true ->
  below dir file1 rel1 -> below dir file2 rel2 ->
  try_number (task_instance context) = Some n ->
  rel1 <> rel2 ->
  _construct_dest_file_path cwd root file1 dir subpath (Some context)
  <> _construct_dest_file_path cwd root file2 dir subpath (Some context).
Proof.
  intros Hcwd H1 H2 Hn Hne. contradict Hne. revert Hne.
  rewrite (construct_dest_file_path_below _ _ _ _ _ rel1 _ n Hcwd H1 Hn).
  rewrite (construct_dest_file_path_below _ _ _ _ _ rel2 _ n Hcwd H2 Hn).
  intros [= E].
  apply (join_snoc_inj (py "/")
           [rstrip (py "/") root; dag_id context; run_id context;
            task_id (task_instance context); str_of_int n; subpath]) in E.
  destruct H1 as (_ & _ & Hr1 & Hne1), H2 as (_ & _ & Hr2 & Hne2).
  change (py "/") with [chr_slash] in E.
  rewrite <- (split_chr_join chr_slash rel1), <- (split_chr_join chr_slash rel2), E; try done.
  - eapply Forall_impl; [exact Hr2|]. by intros ? (_ & _ & _ & ?).
  - eapply Forall_impl; [exact Hr1|]. by intros ? (_ & _ & _ & ?).
Qed.

(** Two attempts of the same task never give the same name, whatever the
    files. *)
Theorem construct_dest_file_path_attempts_distinct
    (file1 file2 : str) (context1 context2 : Context) (n1 n2 : Z) (dest1 dest2 : str) :
  dag_id context1 = dag_id context2 ->
  run_id context1 = run_id context2 ->
  task_id (task_instance context1) = task_id (task_instance context2) ->
  try_number (task_instance context1) = Some n1 ->
  try_number (task_instance context2) = Some n2 ->
  n1 <> n2 ->
  _construct_dest_file_path cwd root file1 dir subpath (Some context1) = Ok dest1 ->
  _construct_dest_file_path cwd root file2 dir subpath (Some context2) = Ok dest2 ->
  dest1 <> dest2.
Proof.
  intros Hd Hr Ht Hn1 Hn2 Hne. unfold _construct_dest_file_path, kwargs_context.
  cbn [mbind result_bind]. rewrite Hn1, Hn2. cbn [getattr mbind result_bind].
  destruct (OsPath.relpath cwd file1 dir) as [x1|]; [|done].
  destruct (OsPath.relpath cwd file2 dir) as [x2|]; [|done].
  cbn [mbind result_bind]. intros H1%Ok_inj H2%Ok_inj E. subst dest1 dest2.
  rewrite Hd, Hr, Ht in E. rewrite <- !app_assoc in E.
  do 8 apply app_inv_head in E.
  change (py "/" ++ subpath ++ py "/" ++ lstrip (py "/") x1)
    with (chr_slash :: subpath ++ py "/" ++ lstrip (py "/") x1) in E.
  change (py "/" ++ subpath ++ py "/" ++ lstrip (py "/") x2)
    with (chr_slash :: subpath ++ py "/" ++ lstrip (py "/") x2) in E.
  apply app_slash_inj in E; [|apply str_of_int_no_slash..].
  by apply str_of_int_inj in E.
Qed.

End DestDistinct.

(** ** The resolver when it goes through *)

Section Resolved.

Context (h : Host).

#[local] Abbreviation root_text := (default [] (remote_target_path (settings h))).


(** The resolver never touches the objects of the store, and what it
    returns from the store it left is what it returned. *)
Theorem configure_remote_target_path_again (r : Remote) :
  objects (_configure_remote_target_path h r).2 = objects r
  /\ forall x, (_configure_remote_target_path h r).1 = Ok x ->
       _configure_remote_target_path h (_configure_remote_target_path h r).2
       = (Ok x, (_configure_remote_target_path h r).2).
Proof.
  destruct (configure_cases h r)
    as [[Hn E] | [(Hres & Hio & E) | (Hres & Hio & c & r' & Hc & [E | E] & Ho)]];
    rewrite E; cbn [fst snd]; (split; [done|]); try done.
  - intros x [= <-]. by apply configure_nothing.
  - intros x [= <-]. by destruct (configure_again h r r' _ c E) as [-> _].
Qed.

End Resolved.

(** ** Failures of the publishers *)

Section PublisherFailures.

Context (h : Host) (project_dir place : str) (conn_id : option str)
  (source_subpath : str).

Lemma for_each_uploads_abort {A} (name_of : A -> result (str * str))
    (content_of : A -> str) (l1 l2 : list A) (x : A)
    (pairs : list ((str * str) * str)) (e : exn) (r : Remote) :
  Forall2 (uploaded h name_of content_of) l1 pairs ->
  name_of x = Raise e
  \/ (exists name, name_of x = Ok name /\ refused h name = true
                   /\ e = TransportError name.2) ->
  for_each (l1 ++ x :: l2) (upload_round h name_of content_of) r
  = (Raise e, {| objects := put_all (objects r) pairs; directories := directories r |}).
Proof.
  intros Hp Hx. rewrite for_each_app, (for_each_uploads_run h _ _ _ _ r Hp).
  cbn [for_each]. unfold mbind at 1, io_bind at 1. unfold upload_round at 1.
  unfold mbind, io_bind, lift, upload_file.
  destruct Hx as [-> | (name & -> & Hr & ->)]; [done|]. by rewrite Hr.
Qed.

(** [upload_to_aws_s3] does not roll back: when the store refuses the object
    of a file, the objects of the files that [os.walk] gave before it stay
    in the store, no file after it is uploaded, and the error of the store
    reaches the caller. *)
Theorem upload_to_aws_s3_no_rollback (context : Context) (n : Z) (r : Remote)
    (before after : list (str * (str * str))) (x : str * (str * str))
    (pairs : list ((str * str) * str)) (name : str * str) :
  s3_attempt context = Ok n ->
  walk_files h (project_dir ++ py "/" ++ source_subpath) = before ++ x :: after ->
  Forall2 (uploaded h (hook_name project_dir place context (Ok n)) (fun x => x.2.2))
    before pairs ->
  hook_name project_dir place context (Ok n) x = Ok name ->
  refused h name = true ->
  upload_to_aws_s3 h project_dir place conn_id source_subpath (Some context) r
  = (Raise (TransportError name.2),
     {| objects := put_all (objects r) pairs; directories := directories r |}).
Proof.
  intros Hn Hwalk Hp Hname Hr.
  rewrite (upload_to_aws_s3_loop h project_dir place conn_id source_subpath context n r Hn).
  rewrite Hwalk. apply for_each_uploads_abort; [done|]. right. by exists name.
Qed.

(** What [upload_to_aws_s3] asks of the context, before it looks for files:
    without a context it raises [KeyError]; without the attribute
    [try_number] it raises [AttributeError], also when [_try_number] is
    there; the attempt is [try_number] unless that is zero, and then
    [_try_number], which must be there.  In each case of error the store is
    as it was. *)
Theorem upload_to_aws_s3_context (r : Remote) :
  upload_to_aws_s3 h project_dir place conn_id source_subpath None r
  = (Raise (KeyError (py "context")), r)
  /\ (forall context,
        try_number (task_instance context) = None ->
        upload_to_aws_s3 h project_dir place conn_id source_subpath (Some context) r
        = (Raise (AttributeError (py "try_number")), r))
  /\ (forall context,
        try_number (task_instance context) = Some 0%Z ->
        _try_number (task_instance context) = None ->
        upload_to_aws_s3 h project_dir place conn_id source_subpath (Some context) r
        = (Raise (AttributeError (py "_try_number")), r))
  /\ (forall context a,
        try_number (task_instance context) = Some a -> a <> 0%Z ->
        s3_attempt context = Ok a)
  /\ (forall context n,
        try_number (task_instance context) = Some 0%Z ->
        _try_number (task_instance context) = Some n ->
        s3_attempt context = Ok n).
Proof.
  split; [done|]. split; [|split; [|split]].
  - intros context Ht. unfold upload_to_aws_s3. unfold mbind at 1, io_bind at 1.
    cbn [kwargs_context lift]. unfold mbind at 1, io_bind at 1. by rewrite Ht.
  - intros context Ht Hp. unfold upload_to_aws_s3. unfold mbind at 1, io_bind at 1.
    cbn [kwargs_context lift]. unfold mbind at 1, io_bind at 1. by rewrite Ht, Hp.
  - intros context a Ht Ha. unfold s3_attempt. rewrite Ht. cbn [getattr mbind result_bind].
    unfold or_else. by rewrite (proj2 (Z.eqb_neq a 0) Ha).
  - intros context n Ht Hp. unfold s3_attempt. by rewrite Ht, Hp.
Qed.

(** [upload_to_azure_wasb] reads the private counter [_try_number] when it
    has a file to upload: without files it returns and leaves the store as
    it is, also when the attribute is missing; with a file and without the
    attribute it raises [AttributeError] and nothing is uploaded. *)
Theorem upload_to_azure_wasb_attempt (context : Context) (r : Remote) :
  _try_number (task_instance context) = None ->
  upload_to_azure_wasb h project_dir place conn_id source_subpath (Some context) r
  = if bool_decide (walk_files h (project_dir ++ py "/" ++ source_subpath) = [])
    then (Ok tt, r)
    else (Raise (AttributeError (py "_try_number")), r).
Proof.
  intros Ht. rewrite upload_to_azure_wasb_loop.
  destruct (walk_files h _) as [|x l]; [done|].
  rewrite bool_decide_eq_false_2 by done. cbn [for_each].
  unfold mbind at 1, io_bind at 1. unfold upload_round at 1.
  unfold mbind, io_bind, lift, hook_name. by rewrite Ht.
Qed.

(** The generic publisher asks for the context only when it has a file to
    copy, and after the resolver: without a context it returns when the
    source directory has no regular file, and raises [KeyError] otherwise;
    the store is then as the resolver left it, with the directory of the
    root made. *)
Theorem upload_to_cloud_storage_without_context (r r1 : Remote) (root : ObjectStoragePath)
    (dest_conn_id : str) :
  _configure_remote_target_path h r = (Ok (Some root, Some dest_conn_id), r1) ->
  upload_to_cloud_storage h project_dir source_subpath None r
  = if bool_decide
         (files_of h (Pathlib.div (Pathlib.of_str project_dir) source_subpath) = [])
    then (Ok tt, r1)
    else (Raise (KeyError (py "context")), r1).
Proof.
  intros E. unfold upload_to_cloud_storage. unfold mbind at 1, io_bind at 1.
  rewrite E. cbn beta iota.
  destruct (files_of h _) as [|[file_path content] l]; [done|].
  by rewrite bool_decide_eq_false_2.
Qed.


End PublisherFailures.

(** ** What [_extract_show_list] reads *)

Section Fragment.

Lemma match_here_chars (w : str) (atoms : list Re.atom) (s : str) (ms : list str) :
  Re.match_here atoms s = Some ms ->
  Re.match_here ((Re.Chr <$> w) ++ atoms) (w ++ s)
  = Some (((fun c => [c]) <$> w) ++ ms).
Proof.
  intros Hs. induction w as [|c w IH]; [done|].
  cbn [fmap list_fmap app Re.match_here]. fold (@fmap list _ _ _ Re.Chr w).
  fold (@fmap list _ _ _ (fun c : N => [c]) w).
  by rewrite N.eqb_refl, IH.
Qed.

Lemma match_here_chr (c : char) (atoms : list Re.atom) (s : str) :
  Re.match_here (Re.Chr c :: atoms) (c :: s) = cons [c] <$> Re.match_here atoms s.
Proof. simpl. by rewrite N.eqb_refl. Qed.

Lemma match_here_greedy (class : char -> bool) (atoms : list Re.atom)
    (t s : str) (ms : list str) :
  Forall (fun x => class x = true) t ->
  match s with x :: _ => class x = false | [] => True end ->
  Re.match_here atoms s = Some ms ->
  Re.match_here (Re.Star class :: atoms) (t ++ s) = Some (t :: ms).
Proof.
  intros Ht Hs Hm. induction Ht as [|a t Ha _ IH].
  - rewrite match_here_star. cbv zeta. rewrite app_nil_l, Hm.
    destruct s as [|x s]; [done|]. by rewrite Hs.
  - rewrite match_here_star. cbv zeta. change ((a :: t) ++ s) with (a :: t ++ s).
    cbv iota. by rewrite Ha, IH.
Qed.

(** The match of the pattern at a key followed by white space, a colon,
    white space and a run in brackets. *)
Lemma match_here_show (ws1 ws2 body post : str) :
  Forall (fun x => Re.is_space x = true) ws1 ->
  Forall (fun x => Re.is_space x = true) ws2 ->
  93%N ∉ body ->
  Re.match_here show_pattern
    (show_key ++ ws1 ++ py ":" ++ ws2 ++ py "[" ++ body ++ py "]" ++ post)
  = Some (((fun c => [c]) <$> show_key)
            ++ [ws1; py ":"; ws2; py "["; body; py "]"]).
Proof.
  intros H1 H2 Hb. unfold show_pattern. fold show_key.
  apply match_here_chars. cbn [app].
  apply match_here_greedy; [done|done|].
  change (py ":" ++ ?t) with (58%N :: t). rewrite match_here_chr.
  rewrite (match_here_greedy _ _ ws2 _ [py "["; body; py "]"]); [done|done|done|].
  change (py "[" ++ ?t) with (91%N :: t). rewrite match_here_chr.
  rewrite (match_here_greedy _ _ body _ [py "]"]); [done| |done|done].
  apply Forall_forall. intros x Hx. apply negb_true_iff, N.eqb_neq. by intros ->.
Qed.

(** The list is read from the first run in brackets after the key: the text
    before the key, when it has no quote, the white space around the colon
    and the text after the closing bracket play no part. *)
Theorem extract_show_list_fragment (h : Host) (pre ws1 ws2 body post : str) :
  no_quote pre = true ->
  Forall (fun x => Re.is_space x = true) ws1 ->
  Forall (fun x => Re.is_space x = true) ws2 ->
  93%N ∉ body ->
  _extract_show_list h
    (pre ++ show_key ++ ws1 ++ py ":" ++ ws2 ++ py "[" ++ body ++ py "]" ++ post)
  = _extract_show_list h (show_key ++ py ":" ++ py "[" ++ body ++ py "]").
Proof.
  intros Hpre H1 H2 Hb. unfold _extract_show_list. rewrite (search_after pre _ Hpre).
  assert (forall s m, Re.match_here show_pattern s = Some m ->
                      Re.search show_pattern s = Some m) as Hsearch.
  { intros s m Hm. destruct s; cbn [Re.search]; by rewrite Hm. }
  rewrite (Hsearch _ _ (match_here_show ws1 ws2 body post H1 H2 Hb)).
  pose proof (match_here_show [] [] body [] (List.Forall_nil _) (List.Forall_nil _) Hb)
    as Hm.
  cbn [app] in Hm. rewrite app_nil_r in Hm.
  rewrite (Hsearch _ _ Hm). done.
Qed.

End Fragment.

(** ** The names of the generic publisher *)

Section CloudStorageLayout.

Context (h : Host) (project_dir source_subpath : str).


End CloudStorageLayout.

(** ** [upload_to_azure_wasb] beside [upload_to_aws_s3] *)

(** When the public counter of attempts is not zero and the private one
    holds the same number, [upload_to_azure_wasb] does what
    [upload_to_aws_s3] does. *)
Theorem upload_to_azure_wasb_as_s3 (h : Host) (project_dir place : str)
    (conn_id conn_id' : option str) (source_subpath : str) (context : Context) (n : Z)
    (r : Remote) :
  try_number (task_instance context) = Some n -> n <> 0%Z ->
  _try_number (task_instance context) = Some n ->
  upload_to_azure_wasb h project_dir place conn_id source_subpath (Some context) r
  = upload_to_aws_s3 h project_dir place conn_id' source_subpath (Some context) r.
Proof.
  intros Ht Hn Hp.
  assert (s3_attempt context = Ok n) as Hs.
  { unfold s3_attempt. rewrite Ht. cbn [getattr mbind result_bind].
    unfold or_else. by rewrite (proj2 (Z.eqb_neq n 0) Hn). }
  rewrite upload_to_azure_wasb_loop, (upload_to_aws_s3_loop _ _ _ _ _ _ n _ Hs).
  by rewrite Hp.
Qed.

(** ** A log file that is missing or cannot be read *)

Section LogPlaceholder.



Context (h : Host) (project_dir log_relative_path xcom_key : str)
  (xcom : gmap str Json.value).

#[local] Abbreviation log_path_text :=
  (Pathlib.to_str (Pathlib.div (Pathlib.of_str project_dir) log_relative_path)).


End LogPlaceholder.

(** ** The further statements on the example project *)

Lemma occursb_occurs (sep t : str) : occursb sep t = false -> ~ occurs sep t.
Proof.
  assert (forall u, startswith sep u = true -> occursb sep u = true) as Hstart.
  { intros [|x u] E; simpl; by rewrite E. }
  intros Hb (a & b & ->). revert Hb. induction a as [|c a IH].
  - intros Hb. change ([] ++ sep ++ b) with (sep ++ b) in Hb.
    by rewrite (Hstart _ (startswith_prefix sep b)) in Hb.
  - simpl. intros [_ Hb]%orb_false_iff. by apply IH.
Qed.

Lemma upload_to_aws_s3_objects_example :
  exists context n,
    Some ctx_example = Some context /\ s3_attempt context = Ok n
    /\ (forall rel filename content,
          regular_file_at (host_example settings_none) (py "/p" ++ py "/" ++ py "target")
            (rel ++ [filename]) content ->
          exists name,
            hook_name (py "/p") (py "bucket") context (Ok n)
              (OsPath.join (py "/p" ++ py "/" ++ py "target") rel, (filename, content))
            = Ok name
            /\ is_Some (objects s3_after_example !! name))
    /\ (forall name,
          (forall rel filename content,
             regular_file_at (host_example settings_none)
               (py "/p" ++ py "/" ++ py "target") (rel ++ [filename]) content ->
             hook_name (py "/p") (py "bucket") context (Ok n)
               (OsPath.join (py "/p" ++ py "/" ++ py "target") rel, (filename, content))
             <> Ok name) ->
          objects s3_after_example !! name = objects remote_empty !! name)
    /\ directories s3_after_example = directories remote_empty.
Proof.
  apply (upload_to_aws_s3_objects (host_example settings_none) (py "/p") (py "bucket")
           None (py "target") (Some ctx_example) remote_empty s3_after_example).
  vm_compute. reflexivity.
Defined.

Lemma upload_to_aws_s3_layout_example :
  is_Some (objects s3_after_example
             !! (py "bucket", py "d1/r1/t1/2/target/run/results.json")).
Proof.
  destruct (upload_to_aws_s3_layout (host_example settings_none) (py "/p") (py "bucket")
              None (py "target") (Some ctx_example) remote_empty s3_after_example)
    as (context & n & Hc & Hn & Hall); [vm_compute; reflexivity|].
  injection Hc as <-. injection Hn as <-.
  apply (Hall [py "run"] (py "results.json") (py "{}") (py "/target/run")).
  - exists target_example. split; [reflexivity|].
    apply (reaches_below _ (py "run") (Dir [(py "results.json", File (py "{}"))])).
    + left.
    + apply reaches_entry. left.
  - reflexivity.
  - apply occursb_occurs. reflexivity.
Defined.

Lemma upload_to_azure_wasb_layout_example :
  exists n,
    _try_number (task_instance ctx_example) = Some n
    /\ is_Some (objects s3_after_example
                  !! (py "bucket",
                      run_prefix ctx_example n ++ py "/target/compiled" ++ py "/"
                      ++ py "q.sql")).
Proof.
  destruct (upload_to_azure_wasb_layout (host_example settings_none) (py "/p") (py "bucket")
              None (py "target") (Some ctx_example) remote_empty s3_after_example)
    as (context & Hc & Hall); [vm_compute; reflexivity|].
  injection Hc as <-.
  apply (Hall [py "compiled"] (py "q.sql") (py "select 1") (py "/target/compiled")).
  - exists target_example. split; [reflexivity|].
    apply (reaches_below _ (py "compiled") (Dir [(py "q.sql", File (py "select 1"))])).
    + right. left.
    + apply reaches_entry. left.
  - reflexivity.
  - apply occursb_occurs. reflexivity.
Defined.

Lemma name_ok_example (x : str) :
  bool_decide (name_ok x) = true -> name_ok x.
Proof. apply bool_decide_eq_true_1. Qed.

Lemma upload_to_gcp_gs_layout_example :
  is_Some (objects gcs_after_example !! (py "bucket", py "p/target/run/results.json")).
Proof.
  apply (upload_to_gcp_gs_layout (host_example settings_none) (py "/p") (py "bucket") None
           (py "target") None remote_empty gcs_after_example [] (py "p"))
    with (rel := [py "run"]) (file := py "results.json") (content := py "{}").
  - reflexivity.
  - reflexivity.
  - repeat constructor; by apply name_ok_example.
  - reflexivity.
  - repeat constructor; by apply name_ok_example.
  - vm_compute. reflexivity.
  - exists target_example. split; [reflexivity|].
    apply (reaches_below _ (py "run") (Dir [(py "results.json", File (py "{}"))])).
    + left.
    + apply reaches_entry. left.
  - repeat constructor; by apply name_ok_example.
Defined.

Lemma construct_dest_file_path_files_distinct_example :
  _construct_dest_file_path (py "/home/u") (py "store://bucket")
    (py "p/target/run/results.json") (py "p/target") (py "target") (Some ctx_example)
  <> _construct_dest_file_path (py "/home/u") (py "store://bucket")
       (py "p/target/compiled/q.sql") (py "p/target") (py "target") (Some ctx_example).
Proof.
  apply (construct_dest_file_path_files_distinct (py "/home/u") (py "store://bucket")
           (py "p/target") (py "target") (py "p/target/run/results.json")
           (py "p/target/compiled/q.sql") [py "run"; py "results.json"]
           [py "compiled"; py "q.sql"] ctx_example 2).
  - reflexivity.
  - apply (@bool_decide_unpack _ (below_dec _ _ _)). vm_compute. exact I.
  - apply (@bool_decide_unpack _ (below_dec _ _ _)). vm_compute. exact I.
  - reflexivity.
  - discriminate.
Defined.

Lemma construct_dest_file_path_attempts_distinct_example :
  py "store://bucket/d1/r1/t1/2/target/run/results.json"
  <> py "store://bucket/d1/r1/t1/3/target/run/results.json".
Proof.
  apply (construct_dest_file_path_attempts_distinct (py "/home/u") (py "store://bucket")
           (py "p/target") (py "target") (py "p/target/run/results.json")
           (py "p/target/run/results.json") ctx_example ctx_third_attempt 2 3).
  - reflexivity.
  - reflexivity.
  - reflexivity.
  - reflexivity.
  - reflexivity.
  - discriminate.
  - vm_compute. reflexivity.
  - vm_compute. reflexivity.
Defined.


Lemma upload_to_aws_s3_no_rollback_example :
  upload_to_aws_s3 host_refusing (py "/p") (py "bucket") None (py "target")
    (Some ctx_example) remote_empty
  = (Raise (TransportError (py "d1/r1/t1/2/target/compiled/q.sql")),
     {| objects :=
          put_all ∅ [((py "bucket", py "d1/r1/t1/2/target/run/results.json"), py "{}")];
        directories := ∅ |}).
Proof.
  apply (upload_to_aws_s3_no_rollback host_refusing (py "/p") (py "bucket") None
           (py "target") ctx_example 2 remote_empty
           [(py "/p/target/run", (py "results.json", py "{}"))] []
           (py "/p/target/compiled", (py "q.sql", py "select 1"))
           [((py "bucket", py "d1/r1/t1/2/target/run/results.json"), py "{}")]
           (py "bucket", py "d1/r1/t1/2/target/compiled/q.sql")).
  - reflexivity.
  - vm_compute. reflexivity.
  - repeat constructor; vm_compute; reflexivity.
  - vm_compute. reflexivity.
  - vm_compute. reflexivity.
Defined.

Lemma upload_to_azure_wasb_attempt_example :
  upload_to_azure_wasb (host_example settings_none) (py "/p") (py "bucket") None
    (py "target") (Some ctx_public_only) remote_empty
  = (Raise (AttributeError (py "_try_number")), remote_empty)
  /\ upload_to_azure_wasb (host_example settings_none) (py "/p") (py "bucket") None
       (py "logs") (Some ctx_public_only) remote_empty
     = (Ok tt, remote_empty).
Proof.
  split.
  - apply (upload_to_azure_wasb_attempt (host_example settings_none) (py "/p") (py "bucket")
             None (py "target") ctx_public_only remote_empty). reflexivity.
  - apply (upload_to_azure_wasb_attempt (host_example settings_none) (py "/p") (py "bucket")
             None (py "logs") ctx_public_only remote_empty). reflexivity.
Defined.

Lemma upload_to_cloud_storage_without_context_example :
  upload_to_cloud_storage (host_example (settings_s3 true)) (py "/p") (py "target") None
    remote_empty
  = (Raise (KeyError (py "context")),
     {| objects := ∅; directories := {[ (py "aws_default", py "s3://bucket") ]} |})
  /\ upload_to_cloud_storage (host_example (settings_s3 true)) (py "/p") (py "logs") None
       remote_empty
     = (Ok tt,
        {| objects := ∅; directories := {[ (py "aws_default", py "s3://bucket") ]} |}).
Proof.
  split.
  - apply (upload_to_cloud_storage_without_context (host_example (settings_s3 true))
             (py "/p") (py "target") remote_empty _
             {| osp_path := py "s3://bucket"; osp_conn_id := Some (py "aws_default") |}
             (py "aws_default")).
    vm_compute. reflexivity.
  - apply (upload_to_cloud_storage_without_context (host_example (settings_s3 true))
             (py "/p") (py "logs") remote_empty _
             {| osp_path := py "s3://bucket"; osp_conn_id := Some (py "aws_default") |}
             (py "aws_default")).
    vm_compute. reflexivity.
Defined.


Lemma extract_show_list_fragment_example :
  _extract_show_list host_log_example
    (py "12:00 " ++ show_key ++ py "  " ++ py ":" ++ py " " ++ py "[" ++ py "1,2,3"
       ++ py "]" ++ py ", x]")
  = _extract_show_list host_log_example
      (show_key ++ py ":" ++ py "[" ++ py "1,2,3" ++ py "]").
Proof.
  apply (extract_show_list_fragment host_log_example (py "12:00 ") (py "  ") (py " ")
           (py "1,2,3") (py ", x]")).
  - reflexivity.
  - repeat constructor.
  - repeat constructor.
  - apply (bool_decide_unpack _). vm_compute. exact I.
Defined.


Lemma upload_to_azure_wasb_as_s3_example :
  upload_to_azure_wasb (host_example settings_none) (py "/p") (py "bucket") None
    (py "target") (Some ctx_example) remote_empty
  = upload_to_aws_s3 (host_example settings_none) (py "/p") (py "bucket") None
      (py "target") (Some ctx_example) remote_empty.
Proof.
  apply (upload_to_azure_wasb_as_s3 _ _ _ _ _ _ ctx_example 2).
  - reflexivity.
  - discriminate.
  - reflexivity.
Defined.


(** The keys of the example start with [d1/r1/t1] and the attempt. *)
Lemma upload_to_aws_s3_keys_example :
  exists context n pairs,
    Some ctx_example = Some context /\ s3_attempt context = Ok n
    /\ length pairs
       = length (walk_files (host_example settings_none) (py "/p" ++ py "/" ++ py "target"))
    /\ objects s3_after_example = put_all (objects remote_empty) pairs
    /\ Forall (fun p => exists rest, p.1 = (py "bucket", run_prefix context n ++ rest)) pairs.
Proof.
  apply (upload_to_aws_s3_keys (host_example settings_none) (py "/p") (py "bucket") None
           (py "target") (Some ctx_example) remote_empty s3_after_example).
  vm_compute. reflexivity.
Defined.

(** The names of the example, for [upload_to_azure_wasb]. *)
Lemma upload_to_azure_wasb_keys_example :
  exists context pairs,
    Some ctx_example = Some context
    /\ length pairs
       = length (walk_files (host_example settings_none) (py "/p" ++ py "/" ++ py "target"))
    /\ objects s3_after_example = put_all (objects remote_empty) pairs
    /\ Forall (fun p => exists n rest,
                 _try_number (task_instance context) = Some n
                 /\ p.1 = (py "bucket", run_prefix context n ++ rest)) pairs.
Proof.
  apply (upload_to_azure_wasb_keys (host_example settings_none) (py "/p") (py "bucket") None
           (py "target") (Some ctx_example) remote_empty s3_after_example).
  vm_compute. reflexivity.
Defined.

(** ** The list [_extract_show_list] returns *)

Section Decoded.

(** What a scanner leaves is the end of the text it was given. *)
Lemma drop_while_suffix (f : char -> bool) (s : str) : drop_while f s `suffix_of` s.
Proof.
  induction s as [|x s IH]; simpl; [done|]. destruct (f x); [|done].
  by apply suffix_cons_r.
Qed.

Lemma skip_ws_suffix (s : str) : Json.skip_ws s `suffix_of` s.
Proof. apply drop_while_suffix. Qed.

Lemma hex4_suffix (s : str) (n : N) (r : str) : Json.hex4 s = Some (n, r) -> r `suffix_of` s.
Proof.
  unfold Json.hex4. destruct s as [|a [|b [|c [|d rest]]]]; try done.
  destruct (Json.hex_digit a); [|done]. destruct (Json.hex_digit b); [|done].
  destruct (Json.hex_digit c); [|done]. destruct (Json.hex_digit d); [|done].
  intros [= _ <-]. by do 4 apply suffix_cons_r.
Qed.



Lemma digits_suffix (s d r : str) : Json.digits s = (d, r) -> r `suffix_of` s.
Proof.
  revert d r. induction s as [|c s IH]; intros d r; cbn [Json.digits].
  - by intros [= _ <-].
  - destruct (Json.is_digit c); [|by intros [= _ <-]].
    destruct (Json.digits s) as [d' r']. intros [= _ <-]. apply suffix_cons_r. by eapply IH.
Qed.

Lemma after_suffix (w s r : str) : Json.after w s = Some r -> r `suffix_of` s.
Proof.
  unfold Json.after. destruct (startswith w s); [|done]. intros [= <-]. apply suffix_drop.
Qed.

(** Chains of such facts. *)
Lemma suffix_step (l1 l2 l3 : str) :
  l1 `suffix_of` l2 -> l2 `suffix_of` l3 -> l1 `suffix_of` l3.
Proof. intros. by etrans. Qed.

Ltac suffix_chain n :=
  first [ assumption | reflexivity
        | apply suffix_cons_r; suffix_chain n
        | apply (suffix_step _ _ _ (skip_ws_suffix _)); suffix_chain n
        | lazymatch n with
          | S ?k =>
              match goal with
              | H : ?a `suffix_of` _ |- ?a `suffix_of` _ =>
                  apply (suffix_step _ _ _ H); suffix_chain k
              end
          end ].

Ltac suffix_solve :=
  repeat match goal with
         | H : ?x :: ?l `suffix_of` ?m |- _ =>
             lazymatch goal with
             | _ : l `suffix_of` m |- _ => fail
             | _ => pose proof (suffix_cons_l _ _ _ H)
             end
         end;
  suffix_chain 8.

(** One step of the analysis of an equation [H] between the result of a
    scanner and [Some _]; [sub] analyses the calls of the scanners inside. *)
Ltac scan_step H sub :=
  match type of H with
  | None = Some _ => discriminate H
  | Some _ = Some _ => injection H as ? ?; subst
  | (_, _) = (_, _) => injection H as ? ?; subst
  | context [match ?x with _ => _ end] => is_var x; destruct x
  | Json.digits _ = _ => apply digits_suffix in H
  | context [Json.digits ?s] =>
      let E := fresh "E" in
      destruct (Json.digits s) as [? ?] eqn:E; apply digits_suffix in E
  | context [Json.hex4 ?s] =>
      let E := fresh "E" in
      destruct (Json.hex4 s) as [[? ?]|] eqn:E; cbn [mbind option_bind] in H;
      [apply hex4_suffix in E|]
  | _ => sub H
  | context [if ?b then _ else _] => destruct b eqn:?
  end.

Lemma scanstring_suffix (fuel : nat) (s t rest : str) :
  Json.scanstring fuel s = Some (t, rest) -> rest `suffix_of` s.
Proof.
  revert s t rest. induction fuel as [|fuel IH]; intros s t rest; [done|].
  cbn [Json.scanstring]. intros H.
  repeat scan_step H ltac:(fun H =>
    match type of H with
    | context [Json.scanstring fuel ?s] =>
        let E := fresh "E" in
        destruct (Json.scanstring fuel s) as [[? ?]|] eqn:E; cbn [mbind option_bind] in H;
        [apply IH in E|]
    end).
  all: suffix_solve.
Qed.

(** [scan_number] reads the parts of a number one after the other. *)
Ltac scan_stage E :=
  match goal with
  | |- match ?m with pair _ _ => _ end = _ -> _ => destruct m as [? ?] eqn:E
  end.

Lemma scan_number_suffix (s : str) (v : Json.value) (rest : str) :
  Json.scan_number s = Some (v, rest) -> rest `suffix_of` s.
Proof.
  unfold Json.scan_number.
  scan_stage E1.
  match type of E1 with _ = (_, ?s1) => assert (s1 `suffix_of` s) as H1 end.
  { repeat scan_step E1 ltac:(fun _ => fail); suffix_solve. }
  clear E1.
  scan_stage E2.
  match type of E2 with _ = (_, ?s2) => assert (s2 `suffix_of` s) as H2 end.
  { repeat scan_step E2 ltac:(fun _ => fail); suffix_solve. }
  clear E2 H1.
  match goal with |- match ?l with [] => _ | _ => _ end = _ -> _ => destruct l; [done|] end.
  scan_stage E3.
  match type of E3 with _ = (_, ?s3) => assert (s3 `suffix_of` s) as H3 end.
  { repeat scan_step E3 ltac:(fun _ => fail); suffix_solve. }
  clear E3 H2.
  scan_stage E4.
  match type of E4 with _ = (_, ?s4) => assert (s4 `suffix_of` s) as H4 end.
  { repeat scan_step E4 ltac:(fun _ => fail); suffix_solve. }
  clear E4 H3.
  intros H. repeat scan_step H ltac:(fun _ => fail); suffix_solve.
Qed.

Ltac scan_lib H :=
  match type of H with
  | context [match Json.skip_ws ?r with _ => _ end] =>
      let E := fresh "E" in
      pose proof (skip_ws_suffix r) as E; destruct (Json.skip_ws r)
  | context [Json.scanstring ?f ?s] =>
      let E := fresh "E" in
      destruct (Json.scanstring f s) as [[? ?]|] eqn:E; cbn [mbind option_bind] in H;
      [apply scanstring_suffix in E|]
  | context [Json.after ?w ?s] =>
      let E := fresh "E" in
      destruct (Json.after w s) eqn:E; [apply after_suffix in E|clear E]
  end.


(** The closing brackets of a text count those of each of its ends. *)
Lemma closings_app (a b : str) : closings (a ++ b) = closings a + closings b.
Proof. unfold closings. by rewrite List.filter_app, length_app. Qed.

Lemma closings_suffix (a b : str) : a `suffix_of` b -> closings a <= closings b.
Proof. intros [k ->]. rewrite closings_app. lia. Qed.

Lemma closings_cons (c : char) (l : str) : closings l <= closings (c :: l).
Proof. apply closings_suffix. by apply suffix_cons_r. Qed.

Lemma closings_close (l : str) : closings (93%N :: l) = S (closings l).
Proof. reflexivity. Qed.

Lemma closings_skip_ws (l : str) : closings (Json.skip_ws l) <= closings l.
Proof. apply closings_suffix, skip_ws_suffix. Qed.

(** A number is no list. *)
Lemma scan_number_flat (s : str) (v : Json.value) (rest : str) :
  Json.scan_number s = Some (v, rest) -> has_list v = false.
Proof.
  unfold Json.scan_number.
  scan_stage E1. clear E1. scan_stage E2. clear E2.
  match goal with |- match ?l with [] => _ | _ => _ end = _ -> _ => destruct l; [done|] end.
  scan_stage E3. clear E3. scan_stage E4. clear E4.
  intros H. repeat scan_step H ltac:(fun _ => fail); reflexivity.
Qed.

(** The calls of the three scanners inside one another, by induction. *)
Ltac scan_rec H fuel IH1 IH2 IH3 :=
  match type of H with
  | context [Json.scan_number ?s] =>
      let E := fresh "E" in
      destruct (Json.scan_number s) as [[? ?]|] eqn:E;
      [pose proof (scan_number_flat _ _ _ E); apply scan_number_suffix in E|clear E]
  | context [Json.scan_once fuel ?s] =>
      let E := fresh "E" in let F := fresh "F" in
      destruct (Json.scan_once fuel s) as [[? ?]|] eqn:E; cbn [mbind option_bind] in H;
      [apply IH1 in E as (E & _ & F)|]
  | context [Json.scan_items fuel ?s] =>
      let E := fresh "E" in let F := fresh "F" in
      destruct (Json.scan_items fuel s) as [[? ?]|] eqn:E; cbn [mbind option_bind] in H;
      [apply IH2 in E as (E & F)|]
  | context [Json.scan_members fuel ?s] =>
      let E := fresh "E" in let F := fresh "F" in
      destruct (Json.scan_members fuel s) as [[? ?]|] eqn:E; cbn [mbind option_bind] in H;
      [apply IH3 in E as (E & F)|]
  | _ => scan_lib H
  end.

(** The numbers of closing brackets in the texts of the context. *)
Ltac count_closings :=
  repeat match goal with
         | H : _ `suffix_of` _ |- _ => apply closings_suffix in H
         end;
  repeat match goal with
         | _ : context [closings (?c :: ?l)] |- _ =>
             lazymatch c with
             | 93%N =>
                 lazymatch goal with
                 | _ : closings (c :: l) = S (closings l) |- _ => fail
                 | _ => pose proof (closings_close l)
                 end
             | _ =>
                 lazymatch goal with
                 | _ : closings l <= closings (c :: l) |- _ => fail
                 | _ => pose proof (closings_cons c l)
                 end
             end
         | _ : context [closings (Json.skip_ws ?l)] |- _ =>
             lazymatch goal with
             | _ : closings (Json.skip_ws l) <= closings l |- _ => fail
             | _ => pose proof (closings_skip_ws l)
             end
         end;
  repeat match goal with
         | H : (?a <= ?b)%nat -> _ |- _ =>
             let Hab := fresh in
             assert (a <= b)%nat as Hab by lia; specialize (H Hab); clear Hab
         end.

(** A value read between two texts with as many closing brackets holds no
    list. *)
Ltac flat_solve :=
  let Hn := fresh "Hn" in
  intros Hn; count_closings;
  first [ lia
        | cbn [has_list existsb snd];
          repeat match goal with
                 | H : has_list _ = false |- _ => rewrite H; clear H
                 | H : existsb _ _ = false |- _ => rewrite H; clear H
                 end;
          reflexivity ].

(** The three scanners keep what [scan_once_spec], [scan_items_spec] and
    [scan_members_spec] state, whatever the fuel. *)
Lemma scan_suffix (fuel : nat) :
  scan_once_spec fuel /\ scan_items_spec fuel /\ scan_members_spec fuel.
Proof.
  induction fuel as [|fuel (IH1 & IH2 & IH3)]; [by repeat split|].
  split; [|split].
  - intros s v rest. cbn [Json.scan_once]. intros H.
    repeat scan_step H ltac:(fun H => scan_rec H fuel IH1 IH2 IH3).
    all: split; [suffix_solve|split].
    all: try (intros s' Hs; try discriminate Hs).
    all: try (injection Hs as <-; eexists; split; [reflexivity|split; [suffix_solve|]]).
    all: flat_solve.
  - intros s vs rest. cbn [Json.scan_items]. intros H.
    repeat scan_step H ltac:(fun H => scan_rec H fuel IH1 IH2 IH3).
    all: split; [suffix_solve|].
    all: flat_solve.
  - intros s ms rest. cbn [Json.scan_members]. intros H.
    repeat scan_step H ltac:(fun H => scan_rec H fuel IH1 IH2 IH3).
    all: split; [suffix_solve|].
    all: flat_solve.
Qed.

(** The first closing bracket of a text is where the group of the pattern
    ends. *)
Lemma first_close (body k r : str) :
  93%N ∉ body -> body ++ [93%N; 125%N] = k ++ 93%N :: r -> r = [125%N].
Proof.
  revert k. induction body as [|b body IH]; intros k Hb.
  - destruct k as [|x [|y k]]; simpl; try (intros [=]; congruence).
    intros [= _ _ H]. by destruct k.
  - destruct k as [|x k]; simpl.
    + intros [= -> _]. destruct Hb. by left.
    + intros [= _ H]. apply (IH k); [|done]. intros ?. apply Hb. by right.
Qed.

(** The group of a match: a bracket, a text without a closing bracket, a
    closing bracket. *)
Lemma group_1_shape (m : list str) :
  Forall2 atom_takes show_pattern m ->
  exists body, group_1 m = 91%N :: body ++ [93%N] /\ 93%N ∉ body.
Proof.
  intros H.
  change show_pattern with
    ((Re.Chr <$> show_key)
       ++ [Re.Star Re.is_space; Re.Chr 58%N; Re.Star Re.is_space]
       ++ [Re.Chr 91%N; Re.Star (fun c => negb (N.eqb c 93)); Re.Chr 93%N]) in H.
  apply Forall2_app_inv_l in H as (m1 & m2 & H1 & H2 & ->).
  apply Forall2_app_inv_l in H2 as (m3 & m4 & H3 & H4 & ->).
  apply Forall2_length in H1, H3.
  change (length (Re.Chr <$> show_key)) with 6 in H1. simpl in H3.
  unfold group_1. rewrite app_assoc, drop_app_length'; [|rewrite length_app; lia].
  inversion H4 as [|? t1 ? ? Ht1 H5]; subst.
  inversion H5 as [|? t2 ? ? Ht2 H6]; subst.
  inversion H6 as [|? t3 ? ? Ht3 H7]; subst. inversion H7; subst.
  simpl in Ht1, Ht2, Ht3. subst t1 t3. exists t2. split.
  - simpl. reflexivity.
  - intros Hin. rewrite Forall_forall in Ht2. specialize (Ht2 _ Hin). done.
Qed.

Lemma closings_none (body : str) : 93%N ∉ body -> closings body = 0.
Proof.
  induction body as [|c body IH]; [done|]. intros Hb. unfold closings. simpl.
  destruct (N.eqb_spec c 93) as [->|_]; [destruct Hb; by left|].
  apply IH. intros ?. apply Hb. by right.
Qed.

(** The document of such a group, once decoded, has the one member [show],
    a list whose items hold no list. *)
Lemma loads_show_document (body : str) (v : Json.value) :
  93%N ∉ body ->
  Json.loads (show_document (91%N :: body ++ [93%N])) = Some v ->
  exists items, v = Json.Object [(py "show", Json.Array items)]
                /\ existsb has_list items = false.
Proof.
  intros Hb.
  change (show_document (91%N :: body ++ [93%N]))
    with (123%N :: 34%N :: (py "show" ++ quote ++ py ": " ++ (91%N :: body ++ [93%N]) ++ py "}")).
  set (rest := py "show" ++ _). unfold Json.loads.
  change (startswith [65279%N] (123%N :: 34%N :: rest)) with false. cbv iota.
  change (Json.skip_ws (123%N :: 34%N :: rest)) with (123%N :: 34%N :: rest).
  destruct (2 * length (123%N :: 34%N :: rest) + 2) as [|[|[|fuel]]] eqn:Ef;
    [simpl in Ef; lia..|].
  cbn [Json.scan_once].
  change (Json.skip_ws (34%N :: rest)) with (34%N :: rest). cbv iota beta.
  cbn [Json.scan_members].
  assert (Json.scanstring (S (length rest)) rest
          = Some (py "show", py ": " ++ (91%N :: body ++ [93%N]) ++ py "}")) as ->
    by reflexivity.
  cbn [mbind option_bind].
  change (Json.skip_ws (py ": " ++ (91%N :: body ++ [93%N]) ++ py "}"))
    with (58%N :: 32%N :: 91%N :: (body ++ [93%N]) ++ py "}").
  cbv iota beta.
  change (Json.skip_ws (32%N :: 91%N :: (body ++ [93%N]) ++ py "}"))
    with (91%N :: (body ++ [93%N]) ++ py "}").
  destruct (Json.scan_once (S fuel) _) as [[v0 rest3]|] eqn:E; [|done].
  apply scan_suffix in E as (_ & E & _).
  destruct (E _ eq_refl) as (items & -> & [k Hk] & Hflat).
  cbn [mbind option_bind].
  rewrite <- app_assoc in Hk, Hflat. apply first_close in Hk as ->; [|done].
  change (Json.skip_ws [125%N]) with [125%N]. cbv iota beta.
  change (Json.skip_ws []) with (@nil N). intros [= <-]. exists items. split; [done|].
  apply Hflat. rewrite closings_app, (closings_none body Hb). done.
Qed.

Lemma existsb_false_Forall {A} (f : A -> bool) (l : list A) :
  existsb f l = false -> Forall (fun x => f x = false) l.
Proof.
  induction l as [|x l IH]; [constructor|]. simpl. intros [? ?]%orb_false_iff.
  constructor; [done|by apply IH].
Qed.

(** Both facts on what [_extract_show_list] returns. *)
Lemma extract_show_list_shape (h : Host) (s : str) (v : Json.value) :
  _extract_show_list h s = Ok v ->
  exists items, v = Json.Array items /\ existsb has_list items = false.
Proof.
  unfold _extract_show_list.
  destruct (Re.search show_pattern s) as [m|] eqn:Em; [|done].
  apply search_sound in Em as [Hm _]. apply group_1_shape in Hm as (body & -> & Hb).
  fold (show_document (91%N :: body ++ [93%N])).
  destruct (Json.loads _) as [doc|] eqn:El; [|done].
  apply loads_show_document in El as (items & -> & Hflat); [|done].
  intros [= <-]. exists items. split; [|done]. vm_compute. reflexivity.
Qed.

(** Whenever [_extract_show_list] returns, it returns a list: the default of
    [data.get] is never used, and no text makes it return another value. *)
Theorem extract_show_list_returns_list (h : Host) (s : str) (v : Json.value) :
  _extract_show_list h s = Ok v -> exists items, v = Json.Array items.
Proof. intros (items & -> & _)%extract_show_list_shape. by exists items. Qed.

(** No item of the list returned is a list, nor an object that holds one at
    any depth: the group of the pattern ends at the first closing bracket, so
    a text with a list inside the list is refused by the decoder. *)
Theorem extract_show_list_flat (h : Host) (s : str) (items : list Json.value) :
  _extract_show_list h s = Ok (Json.Array items) ->
  Forall (fun item => has_list item = false) items.
Proof.
  intros (items' & [= ->] & H)%extract_show_list_shape. by apply existsb_false_Forall.
Qed.

(** [log_to_xcom] either pushes under the key a list whose items hold no
    list, and leaves the other keys of the table, or raises and leaves the
    table as it was. *)
Theorem log_to_xcom_pushes_list (h : Host) (project_dir log_relative_path xcom_key : str)
    (xcom : gmap str Json.value) :
  match log_to_xcom h project_dir log_relative_path xcom_key xcom with
  | (Ok _, xcom') =>
      exists items, xcom' = <[xcom_key := Json.Array items]> xcom
                    /\ Forall (fun item => has_list item = false) items
  | (Raise _, xcom') => xcom' = xcom
  end.
Proof.
  unfold log_to_xcom. destruct (get_current_context h); [|done].
  destruct (_extract_show_list h _) as [v|e] eqn:E; [|done].
  apply extract_show_list_shape in E as (items & -> & H). exists items.
  split; [done|by apply existsb_false_Forall].
Qed.

(** The list of the first case is a list. *)
Lemma extract_show_list_returns_list_example :
  exists items, Json.Array [Json.Int 1; Json.Int 2; Json.Int 3] = Json.Array items.
Proof.
  apply (extract_show_list_returns_list host_log_example show_123).
  vm_compute. reflexivity.
Defined.

(** A number, an empty object and [null] are items that hold no list. *)
Lemma extract_show_list_flat_example :
  Forall (fun item => has_list item = false) [Json.Int 1; Json.Object []; Json.Null].
Proof.
  apply (extract_show_list_flat host_log_example show_mixed).
  vm_compute. reflexivity.
Defined.

(** With the log of [host_with_log] the list is pushed under the key. *)
Lemma log_to_xcom_pushes_list_example :
  exists items,
    log_to_xcom host_with_log (py "/p") (py "logs/dbt.log") (py "dbt_logs") ∅
    = (Ok tt, <[py "dbt_logs" := Json.Array items]> ∅)
    /\ Forall (fun item => has_list item = false) items.
Proof.
  pose proof (log_to_xcom_pushes_list host_with_log (py "/p") (py "logs/dbt.log")
                (py "dbt_logs") ∅) as H.
  assert (log_to_xcom host_with_log (py "/p") (py "logs/dbt.log") (py "dbt_logs") ∅
          = (Ok tt, <[py "dbt_logs" := Json.Array [Json.Int 1; Json.Int 2; Json.Int 3]]> ∅))
    as E.
  { unfold log_to_xcom. cbv zeta.
    assert (_extract_show_list host_with_log
              (log_content_of host_with_log
                 (Pathlib.div (Pathlib.of_str (py "/p")) (py "logs/dbt.log")))
            = Ok (Json.Array [Json.Int 1; Json.Int 2; Json.Int 3])) as ->
      by (vm_compute; reflexivity).
    reflexivity. }
  rewrite E in H. destruct H as (items & H1 & H2). exists items. split; [|exact H2].
  rewrite E. f_equal. exact H1.
Defined.

End Decoded.

(** ** An empty project directory *)

Section EmptyProjectDir.

Context (h : Host) (place : str) (conn_id : option str) (source_subpath : str).

(** With the empty text for the project directory, [upload_to_aws_s3] returns
    when [os.walk] gives no file below [/source_subpath]; with a file,
    [dirpath.split] raises [ValueError] for its empty separator at the first
    one, and nothing is uploaded. *)
Theorem upload_to_aws_s3_empty_project_dir (context : Context) (n : Z) (r : Remote) :
  s3_attempt context = Ok n ->
  upload_to_aws_s3 h [] place conn_id source_subpath (Some context) r
  = if bool_decide (walk_files h (py "/" ++ source_subpath) = [])
    then (Ok tt, r)
    else (Raise (ValueError (py "empty separator")), r).
Proof.
  intros Hn. rewrite (upload_to_aws_s3_loop h [] place conn_id source_subpath context n r Hn).
  change ([] ++ py "/" ++ source_subpath) with (py "/" ++ source_subpath).
  destruct (walk_files h _) as [|x l]; [done|].
  rewrite bool_decide_eq_false_2 by done. reflexivity.
Qed.

End EmptyProjectDir.

(** The files of the example, asked for from the root with an empty project
    directory. *)
Lemma upload_to_aws_s3_empty_project_dir_example :
  upload_to_aws_s3 (host_example settings_none) [] (py "bucket") None (py "p/target")
    (Some ctx_example) remote_empty
  = (Raise (ValueError (py "empty separator")), remote_empty).
Proof.
  rewrite (upload_to_aws_s3_empty_project_dir (host_example settings_none) (py "bucket") None
             (py "p/target") ctx_example 2 remote_empty); [|vm_compute; reflexivity].
  vm_compute. reflexivity.
Defined.
